(** * NeuroLink Speak: the conversation pipeline

    A shallow embedding of the translation, speech-synthesis, transcription
    and conversation-mode modules ([config.py], [translator_service.py],
    [tts_service.py], [asr_service.py], [signal_decoder.py], [database.py]
    and [conversation_mode.py]), of the two pipeline pages of [app.py] and of
    the accounts of [auth.py], followed by the properties of the pipeline.

    Python state ([st.session_state], the SQL table, what Streamlit shows)
    is threaded explicitly through a small state-and-exception monad.  The
    hosted models and the random draws are inputs: one record of externals
    per user interaction. *)

From Stdlib Require Import ZArith String Ascii DecimalString.
From Stdlib Require QArith_base.
From stdpp Require Import gmap strings list sorting.

Open Scope string_scope.
Open Scope Z_scope.

(** ** Python values *)

(** [bytes] objects. *)
Abbreviation bytes := (list Byte.byte).

(** Python floats are only carried around by the pipeline (the confidence
    score); rationals stand in for them. *)
Abbreviation float := QArith_base.Q.

(** Truth value of a [str]: the empty string is falsy. *)
Definition truthy (s : string) : bool :=
  match s with
  | EmptyString => false
  | String _ _ => true
  end.

(** Truth value of an [Optional[str]]: [None] and [""] are falsy. *)
Definition truthy_opt (o : option string) : bool :=
  match o with
  | None => false
  | Some s => truthy s
  end.

(** Truth value of an [Optional[bytes]]: [None] and [b""] are falsy. *)
Definition truthy_bytes (o : option bytes) : bool :=
  match o with
  | None | Some [] => false
  | Some (_ :: _) => true
  end.

(** [str(n)] for a Python [int]. *)
Definition str_of_int (n : Z) : string := NilZero.string_of_int (Z.to_int n).

(** ** database.py *)

Record User := {
  id : Z;
  username : string;
  email : string;
  native_language : string;
  target_language : string;
  voice_type : string
}.

(** A row of [conversation_logs].  The primary key and the [timestamp]
    column are filled in by the database and are not modelled. *)
Record ConversationLog := {
  user_id : Z;
  direction : string;
  original_text : string;
  translated_text : string;
  audio_file_path : option string
}.

(** ** The world the pipeline runs in *)

(** One entry of [st.session_state.conversation_history].  The dictionary of
    a partner message has no ["confidence"] key. *)
Record message_entry := {
  sender : string;
  original : string;
  translated : string;
  confidence : option float;
  audio : option bytes;
  timestamp : Z
}.

(** [st.session_state], restricted to the keys of [conversation_mode.py].
    [message_counter] is only ever read through [.get("message_counter", 0)],
    so the key may be absent; the other two are installed by
    [ConversationManager.__init__]. *)
Record session_state := {
  conversation_history : list message_entry;
  message_counter : option Z;
  active_decoding : bool
}.

(** What the run shows or asks of the outside: Streamlit notifications and
    the requests sent to gTTS. *)
Inductive event :=
| st_warning (msg : string)
| st_error (msg : string)
| st_success (msg : string)
| st_info (msg : string)
| gTTS (text lang : string).

Record world := {
  st_session_state : session_state;
  db_rows : list ConversationLog;
  events : list event
}.

(** Exceptions that leave the functions below. *)
Inductive exn :=
| AttributeError (msg : string)
| RerunException.

Inductive result (A : Type) :=
| Returned (a : A)
| Raised (e : exn).
Arguments Returned {A} a.
Arguments Raised {A} e.

(** A computation: it changes the world and returns or raises.  Mutations
    made before an exception stay in place, as in Python. *)
Definition prog (A : Type) : Type := world -> result A * world.

Definition ret {A} (a : A) : prog A := fun w => (Returned a, w).

Definition raise {A} (e : exn) : prog A := fun w => (Raised e, w).

Definition bind {A B} (m : prog A) (k : A -> prog B) : prog B :=
  fun w =>
    match m w with
    | (Returned a, w') => k a w'
    | (Raised e, w') => (Raised e, w')
    end.

Notation "x <- m ;; k" := (bind m (fun x => k))
  (at level 100, m at next level, right associativity).
Notation "m ;;; k" := (bind m (fun _ => k))
  (at level 100, right associativity).

(** The world after some more events. *)
Definition log_events (evs : list event) (w : world) : world :=
  {| st_session_state := st_session_state w;
     db_rows := db_rows w;
     events := events w ++ evs |}.

Definition emit (e : event) : prog unit :=
  fun w => (Returned tt, log_events [e] w).

Definition get_session : prog session_state :=
  fun w => (Returned (st_session_state w), w).

Definition put_session (s : session_state) : prog unit :=
  fun w => (Returned tt,
            {| st_session_state := s;
               db_rows := db_rows w;
               events := events w |}).

(** ** What the outside answers *)

(** The answer of a library call that can throw. *)
Inductive attempt (A : Type) :=
| Done (a : A)
| Threw (msg : string).
Arguments Done {A} a.
Arguments Threw {A} msg.

(** The two answers of the database to [db.add]; [db.commit]. *)
Inductive commit_fate :=
| Committed
| CommitThrew (msg : string).

(** Everything one interaction takes from outside the program.
    - [from_pretrained name]: loading the MarianMT model and tokenizer;
    - [marian name text]: tokenize, generate and decode with that model;
    - [detect text]: langdetect;
    - [gtts text lang]: gTTS, the temporary MP3 file and its bytes;
    - [feature]: [int(feature_sum * 1000)] of the mock signal;
    - [decoded_confidence]: the confidence [decode_signal] arrives at;
    - [choice]: the draw of [random.choice];
    - [mock_audio]: the noise buffer of the simulated partner (the source
      draws one to three seconds of samples; the model takes any buffer,
      the empty one included, so that a failed transcription can occur);
    - [commit]: what the database does with the row. *)
Record externals := {
  from_pretrained : string -> attempt unit;
  marian : string -> string -> attempt string;
  detect : string -> attempt string;
  gtts : string -> string -> attempt bytes;
  feature : Z;
  decoded_confidence : float;
  choice : nat;
  mock_audio : bytes;
  commit : commit_fate
}.

(** ** config.py *)

Module config.

Definition TRANSLATION_MODELS_items : list (string * string) :=
  [ ("en-es", "Helsinki-NLP/opus-mt-en-es");
    ("es-en", "Helsinki-NLP/opus-mt-es-en");
    ("en-fr", "Helsinki-NLP/opus-mt-en-fr");
    ("fr-en", "Helsinki-NLP/opus-mt-fr-en");
    ("en-de", "Helsinki-NLP/opus-mt-en-de");
    ("de-en", "Helsinki-NLP/opus-mt-de-en");
    ("en-it", "Helsinki-NLP/opus-mt-en-it");
    ("it-en", "Helsinki-NLP/opus-mt-it-en");
    ("en-pt", "Helsinki-NLP/opus-mt-en-pt");
    ("pt-en", "Helsinki-NLP/opus-mt-pt-en");
    ("en-ru", "Helsinki-NLP/opus-mt-en-ru");
    ("ru-en", "Helsinki-NLP/opus-mt-ru-en");
    ("en-ar", "Helsinki-NLP/opus-mt-en-ar");
    ("ar-en", "Helsinki-NLP/opus-mt-ar-en");
    ("en-hi", "Helsinki-NLP/opus-mt-en-hi");
    ("hi-en", "Helsinki-NLP/opus-mt-hi-en");
    ("en-zh", "Helsinki-NLP/opus-mt-en-zh");
    ("zh-en", "Helsinki-NLP/opus-mt-zh-en") ].

Definition TRANSLATION_MODELS : gmap string string :=
  list_to_map TRANSLATION_MODELS_items.

Definition SUPPORTED_LANGUAGES : list string :=
  [ "en"; "es"; "fr"; "de"; "it"; "pt"; "ru"; "ar"; "hi"; "zh" ].

Definition DEFAULT_SOURCE_LANGUAGE : string := "en".
Definition DEFAULT_TARGET_LANGUAGE : string := "es".

End config.

(** ** translator_service.py *)

Module TranslatorService.

(** [load_model_and_tokenizer]: the pair [(model, tokenizer)], or
    [(None, None)] after reporting the exception.  A loaded model is known
    by its name. *)
Definition load_model_and_tokenizer (ext : externals) (model_name : string)
  : prog (option string * option string) :=
  match from_pretrained ext model_name with
  | Done _ => ret (Some model_name, Some model_name)
  | Threw e =>
      emit (st_error ("Error loading translation model " +:+ model_name
                      +:+ ": " +:+ e)) ;;;
      ret (None, None)
  end.

Definition translate_text (ext : externals) (text source_lang target_lang : string)
  : prog (option string) :=
  let model_key := source_lang +:+ "-" +:+ target_lang in
  match config.TRANSLATION_MODELS !! model_key with
  | None =>
      emit (st_warning ("Translation from " +:+ source_lang +:+ " to "
                        +:+ target_lang +:+ " not supported")) ;;;
      ret None
  | Some model_name =>
      mt <- load_model_and_tokenizer ext model_name ;;
      match mt with
      | (Some model, Some _) =>
          match marian ext model text with
          | Done translated_text => ret (Some translated_text)
          | Threw e =>
              emit (st_error ("Error during translation: " +:+ e)) ;;;
              ret None
          end
      | _ =>
          emit (st_error "Failed to load translation model") ;;;
          ret None
      end
  end.

End TranslatorService.

Definition translate_text (ext : externals) (text source_lang target_lang : string)
  : prog string :=
  if negb (truthy text) then ret ""
  else if String.eqb target_lang "no" || String.eqb target_lang "none" then ret text
  else
    translated <- TranslatorService.translate_text ext text source_lang target_lang ;;
    ret (if truthy_opt translated then default text translated else text).

(** ** tts_service.py *)

Module TTSService.

(** The placeholder "model": a dictionary with the name and a flag. *)
Definition initialize_tts_model (model_name : string) : string * bool :=
  (model_name, true).

(** [voice_type] is accepted and not looked at: gTTS is given the text and
    the language only. *)
Definition text_to_speech (ext : externals) (text voice_type : string)
    (language : option string) : prog (option bytes) :=
  if negb (truthy text) then ret None
  else
    let language :=
      if truthy_opt language then default "" language
      else match detect ext text with
           | Done l => l
           | Threw _ => "en"
           end in
    emit (gTTS text language) ;;;
    match gtts ext text language with
    | Done audio_bytes => ret (Some audio_bytes)
    | Threw e =>
        emit (st_error ("Error in text-to-speech conversion: " +:+ e)) ;;;
        ret None
    end.

End TTSService.

(** [generate_speech(text, voice_type="default", language=None)]; the
    defaults are written out by the callers below. *)
Definition generate_speech (ext : externals) (text voice_type : string)
    (language : option string) : prog (option bytes) :=
  if negb (truthy text) then ret None
  else
    let model := TTSService.initialize_tts_model "gTTS_model" in
    audio_bytes <- TTSService.text_to_speech ext text voice_type language ;;
    ret audio_bytes.

(** ** asr_service.py *)

(** [random.choice(seq)] on a non-empty sequence. *)
Definition random_choice (ext : externals) (seq : list string) : string :=
  nth (Nat.modulo (choice ext) (length seq)) seq "".

Module ASRService.

Definition mock_transcriptions : list string :=
  [ "Hello, how are you today?";
    "I would like to order some food.";
    "Can you help me with this task?";
    "The weather is nice today.";
    "I need to go to the store.";
    "What time is it?";
    "Thank you for your assistance.";
    "I don't understand what you mean.";
    "Could you please repeat that?";
    "I'm feeling tired right now.";
    "This is a sample transcription.";
    "I enjoy listening to music.";
    "Where is the nearest hospital?";
    "I need some water please.";
    "How much does this cost?" ].

Definition initialize_asr_model (model_name : string) : string * bool :=
  (model_name, true).

Definition transcribe_audio (ext : externals) (audio_bytes : bytes)
  : option string :=
  match audio_bytes with
  | [] => None
  | _ :: _ => Some (random_choice ext mock_transcriptions)
  end.

End ASRService.

Definition transcribe_speech (ext : externals) (audio_bytes : bytes)
  : option string :=
  match audio_bytes with
  | [] => None
  | _ :: _ =>
      let model := ASRService.initialize_asr_model "mock_asr_model" in
      ASRService.transcribe_audio ext audio_bytes
  end.

(** ** signal_decoder.py *)

Module SignalDecoder.

Definition phrases : list string :=
  [ "I need help"; "I am hungry"; "I am thirsty"; "I am in pain";
    "I need to use the restroom"; "Yes"; "No"; "Please"; "Thank you";
    "Hello"; "Goodbye"; "I love you"; "I am tired"; "I am happy";
    "I am sad"; "I am uncomfortable"; "I am cold"; "I am hot";
    "I am scared"; "I am confused" ].

(** [decode_signal]: the phrase at [int(feature_sum * 1000) % len(phrases)]
    and its confidence. *)
Definition decode_signal (ext : externals) : string * float :=
  let phrase_index := feature ext `mod` Z.of_nat (length phrases) in
  let phrase := nth (Z.to_nat phrase_index) phrases "" in
  (phrase, decoded_confidence ext).

End SignalDecoder.

(** [get_mock_decoded_text()], without the time and signal arrays, which
    the conversation mode drops. *)
Definition get_mock_decoded_text (ext : externals) : string * float :=
  SignalDecoder.decode_signal ext.

(** ** conversation_mode.py *)

(** The state of the widgets in one run of the page. *)
Record widgets := {
  toggle_active_decoding : bool;
  button_simulate_your_message : bool;
  button_simulate_partner_message : bool;
  text_input_manual : string;
  button_send_manual_message : bool
}.

Module ConversationManager.

(** The object: [self.user] is [get_current_user()], possibly [None]. *)
Record manager := { user : option User }.

(** [self.user.<name>] *)
Definition user_attr {A} (self : manager) (name : string) (field : User -> A)
  : prog A :=
  match user self with
  | Some u => ret (field u)
  | None =>
      raise (AttributeError
               ("'NoneType' object has no attribute '" +:+ name +:+ "'"))
  end.

(** [db.add(log_entry); db.commit()] *)
Definition db_add_commit (row : ConversationLog) : prog unit :=
  fun w => (Returned tt,
            {| st_session_state := st_session_state w;
               db_rows := db_rows w ++ [row];
               events := events w |}).

Definition save_conversation_log (self : manager) (ext : externals)
    (direction original_text translated_text : string)
    (audio_bytes : option bytes) : prog bool :=
  match user self with
  | None => ret false
  | Some u =>
      s <- get_session ;;
      let audio_file_path :=
        if truthy_bytes audio_bytes
        then Some ("audio_logs/" +:+ str_of_int (id u) +:+ "_" +:+ direction
                   +:+ "_"
                   +:+ str_of_int (Z.of_nat (length (conversation_history s)))
                   +:+ ".wav")
        else None in
      let log_entry :=
        {| user_id := id u;
           direction := direction;
           original_text := original_text;
           translated_text := translated_text;
           audio_file_path := audio_file_path |} in
      match commit ext with
      | Committed => db_add_commit log_entry ;;; ret true
      | CommitThrew e =>
          emit (st_error ("Error saving conversation log: " +:+ e)) ;;;
          ret false
      end
  end.

(** [st.session_state.conversation_history.append(message_entry)] followed
    by [st.session_state.message_counter =
        st.session_state.get("message_counter", 0) + 1]. *)
Definition append_to_history (entry : message_entry) : prog unit :=
  s <- get_session ;;
  put_session {| conversation_history := conversation_history s ++ [entry];
                 message_counter := message_counter s;
                 active_decoding := active_decoding s |} ;;;
  s <- get_session ;;
  put_session {| conversation_history := conversation_history s;
                 message_counter := Some (default 0 (message_counter s) + 1);
                 active_decoding := active_decoding s |}.

Definition simulate_outgoing_message (self : manager) (ext : externals)
  : prog (string * string * option bytes) :=
  let '(original_text, confidence) := get_mock_decoded_text ext in
  native <- user_attr self "native_language" native_language ;;
  target <- user_attr self "target_language" target_language ;;
  translated_text <- translate_text ext original_text native target ;;
  voice <- user_attr self "voice_type" voice_type ;;
  audio_bytes <- generate_speech ext translated_text voice None ;;
  s <- get_session ;;
  let message_entry :=
    {| sender := "You";
       original := original_text;
       translated := translated_text;
       confidence := Some confidence;
       audio := audio_bytes;
       timestamp := default 0 (message_counter s) |} in
  append_to_history message_entry ;;;
  save_conversation_log self ext "outgoing" original_text translated_text
                        audio_bytes ;;;
  ret (original_text, translated_text, audio_bytes).

Definition simulate_incoming_message (self : manager) (ext : externals)
  : prog (string * string * option bytes) :=
  let audio_bytes := mock_audio ext in
  let original_text := transcribe_speech ext audio_bytes in
  let original_text :=
    if negb (truthy_opt original_text)
    then "Sorry, I couldn't understand that."
    else default "" original_text in
  target <- user_attr self "target_language" target_language ;;
  native <- user_attr self "native_language" native_language ;;
  translated_text <- translate_text ext original_text target native ;;
  voice <- user_attr self "voice_type" voice_type ;;
  response_audio_bytes <- generate_speech ext translated_text voice None ;;
  s <- get_session ;;
  let message_entry :=
    {| sender := "Partner";
       original := original_text;
       translated := translated_text;
       confidence := None;
       audio := response_audio_bytes;
       timestamp := default 0 (message_counter s) |} in
  append_to_history message_entry ;;;
  save_conversation_log self ext "incoming" original_text translated_text
                        response_audio_bytes ;;;
  ret (original_text, translated_text, response_audio_bytes).

(** The body of [if st.button("Send Manual Message") and manual_text:]. *)
Definition send_manual_message (self : manager) (ext : externals)
    (manual_text native_translated_text : string) : prog unit :=
  native <- user_attr self "native_language" native_language ;;
  target <- user_attr self "target_language" target_language ;;
  translated_text <- translate_text ext native_translated_text native target ;;
  voice <- user_attr self "voice_type" voice_type ;;
  audio_bytes <- generate_speech ext translated_text voice None ;;
  s <- get_session ;;
  let message_entry :=
    {| sender := "You";
       original := native_translated_text;
       translated := translated_text;
       confidence := Some (QArith_base.Qmake 1 1);
       audio := audio_bytes;
       timestamp := default 0 (message_counter s) |} in
  append_to_history message_entry ;;;
  save_conversation_log self ext "outgoing" manual_text translated_text
                        audio_bytes ;;;
  emit (st_success "Manual message sent!") ;;;
  raise RerunException.

(** [conversation_interface]: one run of the page.  Layout calls (titles,
    columns, dividers, the rendering of the history) show state and change
    none; they are left out.  [st.rerun()] ends the run by raising. *)
Definition conversation_interface (self : manager) (ext : externals)
    (ui : widgets) : prog unit :=
  match user self with
  | None => emit (st_warning "Please log in to use conversation mode")
  | Some _ =>
      s <- get_session ;;
      put_session {| conversation_history := conversation_history s;
                     message_counter := message_counter s;
                     active_decoding := toggle_active_decoding ui |} ;;;
      (if button_simulate_your_message ui then
         s <- get_session ;;
         if active_decoding s then
           simulate_outgoing_message self ext ;;;
           emit (st_success "Message sent successfully!") ;;;
           raise RerunException
         else
           emit (st_warning
                   "Active decoding is disabled. Enable it to send messages.")
       else ret tt) ;;;
      (if button_simulate_partner_message ui then
         simulate_incoming_message self ext ;;;
         emit (st_success "Partner message received!") ;;;
         raise RerunException
       else ret tt) ;;;
      let manual_text := text_input_manual ui in
      native <- user_attr self "native_language" native_language ;;
      native_translated_text <- translate_text ext manual_text "en" native ;;
      if button_send_manual_message ui && truthy manual_text then
        send_manual_message self ext manual_text native_translated_text
      else ret tt
  end.

End ConversationManager.

(** [ConversationManager.display_conversation_history]: what the two
    columns show.  The left column reads [entry['confidence']] of every
    message of the user, which is a [KeyError] ([None] here) when the key is
    missing; the audio player appears when there is audio. *)
Record your_card := {
  decoded_text : string;
  your_translated_text : string;
  your_confidence : float;
  your_audio : option bytes
}.

Record partner_card := {
  original_speech : string;
  translation : string;
  subtitles : string;
  partner_audio : option bytes
}.

Definition audio_player (a : option bytes) : option bytes :=
  if truthy_bytes a then a else None.

Fixpoint your_messages (history : list message_entry)
  : option (list your_card) :=
  match history with
  | [] => Some []
  | entry :: rest =>
      if String.eqb (sender entry) "You" then
        match confidence entry with
        | None => None
        | Some c =>
            match your_messages rest with
            | Some cards =>
                Some ({| decoded_text := original entry;
                         your_translated_text := translated entry;
                         your_confidence := c;
                         your_audio := audio_player (audio entry) |} :: cards)
            | None => None
            end
        end
      else your_messages rest
  end.

Fixpoint partner_messages (history : list message_entry)
  : list partner_card :=
  match history with
  | [] => []
  | entry :: rest =>
      if String.eqb (sender entry) "Partner" then
        {| original_speech := original entry;
           translation := translated entry;
           subtitles := translated entry;
           partner_audio := audio_player (audio entry) |}
        :: partner_messages rest
      else partner_messages rest
  end.

Definition display_conversation_history (s : session_state)
  : option (list your_card * list partner_card) :=
  match your_messages (conversation_history s) with
  | Some col1 => Some (col1, partner_messages (conversation_history s))
  | None => None
  end.

(** [conversation_mode()]: the page, for the current user of the session. *)
Definition conversation_mode (current_user : option User) (ext : externals)
    (ui : widgets) : prog unit :=
  match current_user with
  | None => emit (st_warning "Please log in to use conversation mode")
  | Some _ =>
      let manager := {| ConversationManager.user := current_user |} in
      ConversationManager.conversation_interface manager ext ui
  end.

(** ** app.py *)

(** The options of the two radio buttons. *)
Inductive signal_kind :=
| EEG
| EMG.

Inductive input_method :=
| UploadAudioFile
| RecordAudioSimulated.

Module app.

(** [signal_type.lower()] *)
Definition lower (signal_type : signal_kind) : string :=
  match signal_type with
  | EEG => "eeg"
  | EMG => "emg"
  end.

(** What the thought-to-speech page shows after decoding; the download
    button comes with the audio. *)
Record thought_output := {
  decoded_in_native : string;
  shown_confidence : float;
  shown_translated_text : string;
  shown_audio : option bytes;
  download_file_name : option string
}.

Definition thought_to_speech (current_user : option User) (ext : externals)
    (signal_type : signal_kind) (decode_signal_pressed : bool)
  : prog (option thought_output) :=
  match current_user with
  | None =>
      emit (st_warning "Please log in to use this feature") ;;;
      ret None
  | Some user =>
      if decode_signal_pressed then
        let '(original_text, confidence) := get_mock_decoded_text ext in
        decoded_in_native <-
          translate_text ext original_text "en" (native_language user) ;;
        translated_text <-
          translate_text ext original_text (native_language user)
                         (target_language user) ;;
        audio_bytes <-
          generate_speech ext translated_text (voice_type user) None ;;
        ret (Some {| decoded_in_native := decoded_in_native;
                     shown_confidence := confidence;
                     shown_translated_text := translated_text;
                     shown_audio := audio_player audio_bytes;
                     download_file_name :=
                       if truthy_bytes audio_bytes
                       then Some ("neurolink_speak_" +:+ lower signal_type
                                  +:+ "_" +:+ target_language user +:+ ".wav")
                       else None |})
      else ret None
  end.

(** The block both branches of [incoming_speech] run: transcribe the mock
    audio, translate, speak.  [translate_text(None, ...)] leaves through
    [if not text] with the empty text. *)
Definition transcribe_translate_speak (ext : externals) (user : User)
  : prog (option string * string * option bytes) :=
  let audio_bytes := mock_audio ext in
  let transcribed_text := transcribe_speech ext audio_bytes in
  translated_text <-
    match transcribed_text with
    | Some text =>
        translate_text ext text (target_language user) (native_language user)
    | None => ret ""
    end ;;
  response_audio_bytes <-
    generate_speech ext translated_text (voice_type user) None ;;
  ret (transcribed_text, translated_text, response_audio_bytes).

Definition incoming_speech (current_user : option User) (ext : externals)
    (method : input_method) (uploaded_file : option bytes)
    (process_audio_pressed simulate_recording_pressed : bool)
  : prog (option (option string * string * option bytes)) :=
  match current_user with
  | None =>
      emit (st_warning "Please log in to use this feature") ;;;
      ret None
  | Some user =>
      match method with
      | UploadAudioFile =>
          match uploaded_file with
          | Some _ =>
              emit (st_info
                      "File uploaded successfully (using mock processing)") ;;;
              if process_audio_pressed then
                shown <- transcribe_translate_speak ext user ;;
                ret (Some shown)
              else ret None
          | None => ret None
          end
      | RecordAudioSimulated =>
          emit (st_info
                  "In this simulation, we'll generate mock audio data") ;;;
          if simulate_recording_pressed then
            shown <- transcribe_translate_speak ext user ;;
            ret (Some shown)
          else ret None
      end
  end.

End app.

(** ** auth.py *)

(** A row of [users]: the columns the pipeline reads, and the password
    hash.  (The [created_at] column is not modelled.) *)
Record account := {
  profile : User;
  hashed_password : string
}.

(** The keys ["user"] and ["token"] of [st.session_state]. *)
Record login_state := {
  session_user : option User;
  session_token : option string
}.

(** What the authentication code takes from outside:
    - [sha256_hexdigest]: [hashlib.sha256(s.encode()).hexdigest()];
    - [jwt_encode user_id username]: the signed token, expiry included;
    - [assigned_id]: the primary key the database gives a new row;
    - [db_answer]: whether the database work inside the [try], up to and
      including [db.commit()], goes through or throws;
    - [refresh_answer]: whether [db.refresh(new_user)], which comes after
      the commit, goes through or throws. *)
Record auth_externals := {
  sha256_hexdigest : string -> string;
  jwt_encode : Z -> string -> string;
  assigned_id : Z;
  db_answer : attempt unit;
  refresh_answer : attempt unit
}.

(** A [str] is held as the bytes of its UTF-8 encoding.  [len(s)] counts
    its code points: the bytes that do not continue a character, that is,
    all but those of the form 10xxxxxx. *)
Definition continuation_byte (c : ascii) : bool :=
  match c with
  | Ascii _ _ _ _ _ _ b6 b7 => b7 && negb b6
  end.

Fixpoint len (s : string) : nat :=
  match s with
  | EmptyString => 0
  | String c s' => if continuation_byte c then len s' else S (len s')
  end.

(** [x or d] for an optional string. *)
Definition or_default (x : option string) (d : string) : string :=
  if truthy_opt x then default "" x else d.

(** [User.username == username] and [User.email == email] as filters. *)
Definition has_username (name : string) (a : account) : bool :=
  String.eqb (username (profile a)) name.

Definition has_email (mail : string) (a : account) : bool :=
  String.eqb (email (profile a)) mail.

Module auth.

Definition hash_password (ax : auth_externals) (password : string) : string :=
  sha256_hexdigest ax password.

Definition verify_password (ax : auth_externals)
    (plain_password hashed_password : string) : bool :=
  String.eqb (hash_password ax plain_password) hashed_password.

(** [create_user]: the new user, or [None], and the table afterwards.  An
    exception in the [try] gives [None]; the rollback undoes what is not
    yet committed, so after a throw of [db.refresh] the new row stays. *)
Definition create_user (ax : auth_externals) (username email password : string)
    (native_language target_language voice_type : option string)
    (users : list account) : option User * list account :=
  match db_answer ax with
  | Threw _ => (None, users)
  | Done _ =>
      match find (has_username username) users with
      | Some _ => (None, users)
      | None =>
          match find (has_email email) users with
          | Some _ => (None, users)
          | None =>
              let new_user :=
                {| id := assigned_id ax;
                   username := username;
                   email := email;
                   native_language :=
                     or_default native_language config.DEFAULT_SOURCE_LANGUAGE;
                   target_language :=
                     or_default target_language config.DEFAULT_TARGET_LANGUAGE;
                   voice_type := or_default voice_type "default" |} in
              let users' :=
                (users ++ [{| profile := new_user;
                              hashed_password :=
                                hash_password ax password |}])%list in
              match refresh_answer ax with
              | Done _ => (Some new_user, users')
              | Threw _ => (None, users')
              end
          end
      end
  end.

Definition authenticate_user (ax : auth_externals) (username password : string)
    (users : list account) : option User :=
  match db_answer ax with
  | Threw _ => None
  | Done _ =>
      match find (has_username username) users with
      | None => None
      | Some user =>
          if verify_password ax password (hashed_password user)
          then Some (profile user)
          else None
      end
  end.

Definition login_user (ax : auth_externals) (user : User) : string :=
  jwt_encode ax (id user) (username user).

Definition get_current_user (s : login_state) : option User :=
  session_user s.

(** The forms and [logout] give the outcome of the run ([st.rerun()]
    raises), the login state, the table and what they show. *)
Definition login_form (ax : auth_externals) (username password : string)
    (login_button : bool) (users : list account) (s : login_state)
  : result unit * login_state * list event :=
  if login_button then
    match authenticate_user ax username password users with
    | Some user =>
        (Raised RerunException,
         {| session_user := Some user;
            session_token := Some (login_user ax user) |},
         [st_success "Login successful!"])
    | None => (Returned tt, s, [st_error "Invalid username or password"])
    end
  else (Returned tt, s, []).

(** [translation_enabled] is [st.session_state.get("translation_enabled",
    True)]; [target_choice] is the selection of the target-language box,
    shown only when translation is enabled; without it the form shows a
    notice, on every run. *)
Definition signup_form (ax : auth_externals)
    (username email password confirm_password : string)
    (native_language : string) (translation_enabled : bool)
    (target_choice : string) (voice_type : string) (signup_button : bool)
    (users : list account) (s : login_state)
  : result unit * login_state * list account * list event :=
  let target_language :=
    if translation_enabled then target_choice else native_language in
  let notice :=
    if translation_enabled then []
    else [st_info "Translation is disabled — Target Language set to Native Language automatically."] in
  if signup_button then
    if negb (String.eqb password confirm_password) then
      (Returned tt, s, users, (notice ++ [st_error "Passwords do not match"])%list)
    else if (len password <? 6)%nat then
      (Returned tt, s, users,
       (notice ++ [st_error "Password must be at least 6 characters"])%list)
    else
      match create_user ax username email password (Some native_language)
              (Some target_language) (Some voice_type) users with
      | (Some user, users') =>
          (Raised RerunException,
           {| session_user := Some user;
              session_token := Some (login_user ax user) |},
           users',
           (notice ++ [st_success "Account created successfully!"])%list)
      | (None, users') =>
          (Returned tt, s, users',
           (notice ++ [st_error "Username or email already exists"])%list)
      end
  else (Returned tt, s, users, notice).

Definition logout (s : login_state)
  : result unit * login_state * list event :=
  (Raised RerunException,
   {| session_user := None; session_token := None |},
   [st_success "You have been logged out"]).

End auth.

(** * Notions used by the statements *)

(** Notifications, as opposed to synthesis requests. *)
Definition is_notice (e : event) : Prop :=
  match e with
  | gTTS _ _ => False
  | _ => True
  end.

(** The first [n] characters of a string. *)
Fixpoint string_take (n : nat) (s : string) : string :=
  match n, s with
  | S n', String c s' => String c (string_take n' s')
  | _, _ => ""
  end.

(** Whether a key of the model table has the shape [L-L]. *)
Definition same_language_key (k : string) : bool :=
  let L := string_take (Nat.div2 (String.length k)) k in
  String.eqb (L +:+ "-" +:+ L) k.

(** [target_lang] is one of the values that switch translation off. *)
Definition translation_disabled (target_lang : string) : bool :=
  String.eqb target_lang "no" || String.eqb target_lang "none".

(** The warning of [TranslatorService.translate_text] for a pair without a
    model. *)
Definition not_supported_warning (source_lang target_lang : string) : event :=
  st_warning ("Translation from " +:+ source_lang +:+ " to " +:+ target_lang
              +:+ " not supported").

(** The reading "a pair without a model always gets its text back together
    with a warning". *)
Definition unsupported_pair_always_warns : Prop :=
  forall ext text source_lang target_lang w,
    config.TRANSLATION_MODELS !! (source_lang +:+ "-" +:+ target_lang) = None ->
    exists msg evs,
      translate_text ext text source_lang target_lang w
        = (Returned text, log_events evs w)
      /\ st_warning msg ∈ evs.

(** The language [text_to_speech] settles on when it is given none:
    langdetect's answer, or English when langdetect throws. *)
Definition detected_language (ext : externals) (text : string) : string :=
  match detect ext text with
  | Done l => l
  | Threw _ => "en"
  end.

(** The reading "the outgoing turn is spoken in the user's target
    language": the call asks gTTS for the translated text in that
    language. *)
Definition outgoing_speech_in_target_language : Prop :=
  forall self u ext w,
    ConversationManager.user self = Some u ->
    exists original_text translated_text audio_bytes w' evs,
      ConversationManager.simulate_outgoing_message self ext w
        = (Returned (original_text, translated_text, audio_bytes), w')
      /\ events w' = (events w ++ evs)%list
      /\ gTTS translated_text (target_language u) ∈ evs.

(** The timestamp the next turn gets. *)
Definition next_timestamp (s : session_state) : Z :=
  default 0 (message_counter s).

(** The session once a turn is in the history and counted. *)
Definition with_turn (entry : message_entry) (s : session_state)
  : session_state :=
  {| conversation_history := conversation_history s ++ [entry];
     message_counter := Some (next_timestamp s + 1);
     active_decoding := active_decoding s |}.

(** What a call to [save_conversation_log] adds to the table, and what it
    shows. *)
Definition rows_saved (ext : externals) (row : ConversationLog)
  : list ConversationLog :=
  match commit ext with
  | Committed => [row]
  | CommitThrew _ => []
  end.

Definition save_notice (ext : externals) : list event :=
  match commit ext with
  | Committed => []
  | CommitThrew e => [st_error ("Error saving conversation log: " +:+ e)]
  end.

(** The text [simulate_incoming_message] works with: the transcription, or
    the apology when there is none. *)
Definition partner_text (ext : externals) : string :=
  let heard := transcribe_speech ext (mock_audio ext) in
  if negb (truthy_opt heard) then "Sorry, I couldn't understand that."
  else default "" heard.

(** What a call returns about the turn it made. *)
Definition summary (e : message_entry) : string * string * option bytes :=
  (original e, translated e, audio e).

(** The two simulated directions, and a session as a sequence of calls,
    each with the externals it meets. *)
Inductive call :=
| outgoing
| incoming.

Definition sender_of (c : call) : string :=
  match c with
  | outgoing => "You"
  | incoming => "Partner"
  end.

Definition perform (self : ConversationManager.manager) (c : call)
    (ext : externals) : prog (string * string * option bytes) :=
  match c with
  | outgoing => ConversationManager.simulate_outgoing_message self ext
  | incoming => ConversationManager.simulate_incoming_message self ext
  end.

Fixpoint perform_all (self : ConversationManager.manager)
    (script : list (call * externals))
  : prog (list (string * string * option bytes)) :=
  match script with
  | [] => ret []
  | (c, ext) :: rest =>
      r <- perform self c ext ;;
      rs <- perform_all self rest ;;
      ret (r :: rs)
  end.

(** The same externals with another answer of the database. *)
Definition with_commit (fate : commit_fate) (ext : externals) : externals :=
  {| from_pretrained := from_pretrained ext;
     marian := marian ext;
     detect := detect ext;
     gtts := gtts ext;
     feature := feature ext;
     decoded_confidence := decoded_confidence ext;
     choice := choice ext;
     mock_audio := mock_audio ext;
     commit := fate |}.

(** *** Sample worlds *)

Definition fresh_session : session_state :=
  {| conversation_history := [];
     message_counter := None;
     active_decoding := true |}.

Definition fresh_world : world :=
  {| st_session_state := fresh_session; db_rows := []; events := [] |}.

(** Every service is unreachable and the database refuses the row. *)
Definition services_down : externals :=
  {| from_pretrained := fun _ => Threw "connection refused";
     marian := fun _ _ => Threw "connection refused";
     detect := fun _ => Threw "No features in text.";
     gtts := fun _ _ => Threw "connection refused";
     feature := 0;
     decoded_confidence := QArith_base.Qmake 85 100;
     choice := 0%nat;
     mock_audio := [];
     commit := CommitThrew "database is locked" |}.

(** Every service answers; the English-to-Spanish model knows one phrase
    and langdetect takes the short Spanish sentence for Portuguese. *)
Definition services_up : externals :=
  {| from_pretrained := fun _ => Done tt;
     marian := fun name text =>
       if String.eqb name "Helsinki-NLP/opus-mt-en-es"
          && String.eqb text "I need help"
       then Done "Necesito ayuda" else Done text;
     detect := fun _ => Done "pt";
     gtts := fun _ _ => Done [Byte.x49; Byte.x44; Byte.x33];
     feature := 0;
     decoded_confidence := QArith_base.Qmake 85 100;
     choice := 0%nat;
     mock_audio := [Byte.x00; Byte.x01];
     commit := Committed |}.

Definition luis : User :=
  {| id := 8;
     username := "luis";
     email := "luis@example.org";
     native_language := "es";
     target_language := "en";
     voice_type := "default" |}.

(** Only the manual message is sent in this run of the page. *)
Definition typed_help : widgets :=
  {| toggle_active_decoding := true;
     button_simulate_your_message := false;
     button_simulate_partner_message := false;
     text_input_manual := "I need help";
     button_send_manual_message := true |}.

Definition ana : User :=
  {| id := 7;
     username := "ana";
     email := "ana@example.org";
     native_language := "en";
     target_language := "es";
     voice_type := "female" |}.

(** *** Keys of the model table *)

(** The number of hyphens in a key. *)
Fixpoint hyphens (k : string) : nat :=
  match k with
  | EmptyString => 0
  | String c k' => ((if Ascii.eqb c "-" then 1 else 0) + hyphens k')%nat
  end.

(** A key cut at its first hyphen. *)
Fixpoint split_hyphen (k : string) : option (string * string) :=
  match k with
  | EmptyString => None
  | String c k' =>
      if Ascii.eqb c "-" then Some ("", k')
      else match split_hyphen k' with
           | Some (a, b) => Some (String c a, b)
           | None => None
           end
  end.

(** *** Synthesis *)

(** The language [text_to_speech] asks gTTS for: the hint when there is a
    non-empty one, what langdetect finds otherwise. *)
Definition speech_language (ext : externals) (text : string)
    (language : option string) : string :=
  if truthy_opt language then default "" language
  else detected_language ext text.

(** *** Sessions of the conversation page *)

(** A message of the user carries a confidence; the other messages are the
    partner's. *)
Definition entry_shape_ok (e : message_entry) : Prop :=
  (sender e = "You" /\ is_Some (confidence e)) \/
  (sender e = "Partner" /\ confidence e = None).

(** The direction logged for a turn. *)
Definition direction_of (e : message_entry) : string :=
  if String.eqb (sender e) "You" then "outgoing" else "incoming".

(** Nothing of the conversation changed between two worlds. *)
Definition conversation_unchanged (w w' : world) : Prop :=
  conversation_history (st_session_state w')
  = conversation_history (st_session_state w) /\
  message_counter (st_session_state w')
  = message_counter (st_session_state w) /\
  db_rows w' = db_rows w.

(** Exactly the turn [e] was added between two worlds, and logged if the
    database took the row. *)
Definition turn_added (u : User) (ext : externals) (w w' : world)
    (e : message_entry) : Prop :=
  conversation_history (st_session_state w')
  = (conversation_history (st_session_state w) ++ [e])%list /\
  message_counter (st_session_state w')
  = Some (next_timestamp (st_session_state w) + 1) /\
  timestamp e = next_timestamp (st_session_state w) /\
  entry_shape_ok e /\
  exists row,
    db_rows w' = (db_rows w ++ rows_saved ext row)%list /\
    user_id row = id u /\
    direction row = direction_of e /\
    translated_text row = translated e.

(** Successive runs of the conversation page in one session, each with its
    externals and its widgets; the world is carried over, whether a run
    returned or asked for a rerun. *)
Fixpoint page_runs (current_user : option User)
    (script : list (externals * widgets)) (w : world) : world :=
  match script with
  | [] => w
  | (ext, ui) :: rest =>
      page_runs current_user rest
        (snd (conversation_mode current_user ext ui w))
  end.

(** A session whose turns are numbered from zero in order, with the
    counter at their number, and whose log holds the rows [rows0] it started
    with, followed by at most one row per turn. *)
Definition conversation_numbered (rows0 : list ConversationLog) (w : world)
  : Prop :=
  timestamp <$> conversation_history (st_session_state w)
  = seqZ 0 (Z.of_nat (length (conversation_history (st_session_state w)))) /\
  next_timestamp (st_session_state w)
  = Z.of_nat (length (conversation_history (st_session_state w))) /\
  Forall entry_shape_ok (conversation_history (st_session_state w)) /\
  exists rows,
    db_rows w = (rows0 ++ rows)%list /\
    (length rows <= length (conversation_history (st_session_state w)))%nat.

(** Whether the database takes the row of a call. *)
Definition commits (ext : externals) : bool :=
  match commit ext with
  | Committed => true
  | CommitThrew _ => false
  end.

(** Whether the widgets of a run ask for a message: the signal button
    with decoding active, the partner button, or the manual button with a
    text. *)
Definition message_requested (ui : widgets) : bool :=
  (button_simulate_your_message ui && toggle_active_decoding ui)
  || button_simulate_partner_message ui
  || (button_send_manual_message ui && truthy (text_input_manual ui)).

(** Whether the widgets of the incoming-speech page ask for processing:
    an uploaded file with "Process Audio", or "Simulate Recording and
    Process". *)
Definition processing_requested (method : input_method)
    (uploaded_file : option bytes)
    (process_audio_pressed simulate_recording_pressed : bool) : bool :=
  match method with
  | UploadAudioFile =>
      match uploaded_file with
      | Some _ => process_audio_pressed
      | None => false
      end
  | RecordAudioSimulated => simulate_recording_pressed
  end.

(** The notice of the incoming-speech page for an input method. *)
Definition input_notice (method : input_method) : event :=
  match method with
  | UploadAudioFile =>
      st_info "File uploaded successfully (using mock processing)"
  | RecordAudioSimulated =>
      st_info "In this simulation, we'll generate mock audio data"
  end.

(** *** Accounts *)

(** The user names and the e-mail addresses of a table of users. *)
Definition usernames (users : list account) : list string :=
  (fun a => username (profile a)) <$> users.

Definition emails (users : list account) : list string :=
  (fun a => email (profile a)) <$> users.

(** The account [create_user] writes for its arguments. *)
Definition new_account (ax : auth_externals) (name mail password : string)
    (nl tl vt : option string) : account :=
  {| profile :=
       {| id := assigned_id ax;
          username := name;
          email := mail;
          native_language := or_default nl config.DEFAULT_SOURCE_LANGUAGE;
          target_language := or_default tl config.DEFAULT_TARGET_LANGUAGE;
          voice_type := or_default vt "default" |};
     hashed_password := sha256_hexdigest ax password |}.

(** The user name or the e-mail address is taken, or the database throws
    before the row is committed. *)
Definition refused (ax : auth_externals) (name mail : string)
    (users : list account) : Prop :=
  (exists e, db_answer ax = Threw e) \/
  (name ∈ usernames users) \/ (mail ∈ emails users).

(** The notice of the sign-up form. *)
Definition signup_notice (translation_enabled : bool) : list event :=
  if translation_enabled then []
  else [st_info "Translation is disabled — Target Language set to Native Language automatically."].

(** The database answers at log-in but not when a new row is refreshed. *)
Definition refresh_fails : auth_externals :=
  {| sha256_hexdigest := fun s => "sha256:" +:+ s;
     jwt_encode := fun uid name => "jwt." +:+ name;
     assigned_id := 8;
     db_answer := Done tt;
     refresh_answer := Threw "connection lost" |}.

(** The database throws at every query. *)
Definition database_down : auth_externals :=
  {| sha256_hexdigest := fun s => "sha256:" +:+ s;
     jwt_encode := fun uid name => "jwt." +:+ name;
     assigned_id := 9;
     db_answer := Threw "database is locked";
     refresh_answer := Threw "database is locked" |}.

(** Sample externals of the authentication code: the digest is a stand-in
    that marks its input, the database answers. *)
Definition sample_auth : auth_externals :=
  {| sha256_hexdigest := fun s => "sha256:" +:+ s;
     jwt_encode := fun uid name => "jwt." +:+ name;
     assigned_id := 7;
     db_answer := Done tt;
     refresh_answer := Done tt |}.

Definition ana_account : account :=
  {| profile := ana; hashed_password := "sha256:correct horse" |}.

(** * Properties *)

(** ** Running programs *)

Lemma bind_returned {A B} (m : prog A) (k : A -> prog B) w a w1 :
  m w = (Returned a, w1) -> bind m k w = k a w1.
Proof. intros Hm. unfold bind. now rewrite Hm. Qed.

Lemma bind_raised {A B} (m : prog A) (k : A -> prog B) w e w1 :
  m w = (Raised e, w1) -> bind m k w = (Raised e, w1).
Proof. intros Hm. unfold bind. now rewrite Hm. Qed.

Lemma log_events_nil w : log_events [] w = w.
Proof. destruct w. unfold log_events. simpl. now rewrite app_nil_r. Qed.

Lemma log_events_app evs1 evs2 w :
  log_events evs2 (log_events evs1 w) = log_events (evs1 ++ evs2) w.
Proof. unfold log_events. simpl. now rewrite app_assoc. Qed.

(** ** The table of translation models *)

Lemma string_take_append (L r : string) :
  string_take (String.length L) (L +:+ r) = L.
Proof. induction L as [|c L IH]; simpl; [now destruct r | now rewrite IH]. Qed.

Lemma string_length_append (s1 s2 : string) :
  String.length (s1 +:+ s2) = (String.length s1 + String.length s2)%nat.
Proof. induction s1 as [|c s1 IH]; simpl; [reflexivity | now rewrite IH]. Qed.

Lemma length_same_language (L : string) :
  String.length (L +:+ "-" +:+ L) = S (2 * String.length L)%nat.
Proof. rewrite !string_length_append. simpl. lia. Qed.

Lemma same_language_key_complete (L : string) :
  same_language_key (L +:+ "-" +:+ L) = true.
Proof.
  unfold same_language_key.
  rewrite length_same_language, Nat.div2_succ_double, string_take_append.
  apply String.eqb_refl.
Qed.

Lemma no_same_language_model (L : string) :
  config.TRANSLATION_MODELS !! (L +:+ "-" +:+ L) = None.
Proof.
  apply not_elem_of_list_to_map_1.
  intros Hin.
  assert (Hall : Forall (fun k => same_language_key k = false)
                        (config.TRANSLATION_MODELS_items.*1)).
  { vm_compute. repeat constructor. }
  rewrite Forall_forall in Hall.
  specialize (Hall _ Hin).
  rewrite same_language_key_complete in Hall. discriminate.
Qed.

(** ** The translator *)

Lemma service_translate_text_runs ext text source_lang target_lang :
  exists r evs,
    Forall is_notice evs /\
    forall w,
      TranslatorService.translate_text ext text source_lang target_lang w
        = (Returned r, log_events evs w).
Proof.
  unfold TranslatorService.translate_text,
    TranslatorService.load_model_and_tokenizer.
  destruct (config.TRANSLATION_MODELS !! _) as [name|].
  - destruct (from_pretrained ext name) as [[]|e].
    + destruct (marian ext name text) as [tr|e] eqn:Hm.
      * exists (Some tr), []. split; [constructor|].
        intros w. unfold bind, ret. rewrite Hm. now rewrite log_events_nil.
      * exists None, [st_error ("Error during translation: " +:+ e)].
        split; [repeat constructor|].
        intros w. unfold bind, ret. now rewrite Hm.
    + exists None,
        [st_error ("Error loading translation model " +:+ name +:+ ": " +:+ e);
         st_error "Failed to load translation model"].
      split; [repeat constructor|].
      intros w. unfold bind, emit, ret. now rewrite log_events_app.
  - exists None, [not_supported_warning source_lang target_lang].
    split; [repeat constructor|]. reflexivity.
Qed.

(** Whatever the services do, [translate_text] returns; the text it returns
    is empty exactly when the input is; it only adds notifications. *)
Lemma translate_text_runs ext text source_lang target_lang :
  exists r evs,
    truthy r = truthy text /\
    Forall is_notice evs /\
    forall w,
      translate_text ext text source_lang target_lang w
        = (Returned r, log_events evs w).
Proof.
  unfold translate_text.
  destruct text as [|c text]; simpl.
  { exists "", []. repeat split; [constructor|].
    intros w. unfold ret. now rewrite log_events_nil. }
  destruct (_ || _).
  { exists (String c text), []. repeat split; [constructor|].
    intros w. unfold ret. now rewrite log_events_nil. }
  destruct (service_translate_text_runs ext (String c text) source_lang
              target_lang) as (r & evs & Hevs & Hrun).
  exists (if truthy_opt r then default (String c text) r else String c text), evs.
  split; [|split; [exact Hevs|]].
  - destruct r as [[|]|]; reflexivity.
  - intros w. rewrite (bind_returned _ _ _ _ _ (Hrun w)). reflexivity.
Qed.

(** Without a model for the pair, the text comes back as it is; the warning
    is shown when the text is not empty and translation is not switched
    off. *)
Lemma translate_text_without_model ext text source_lang target_lang w :
  config.TRANSLATION_MODELS !! (source_lang +:+ "-" +:+ target_lang) = None ->
  translate_text ext text source_lang target_lang w
    = (Returned text,
       log_events
         (if truthy text && negb (translation_disabled target_lang)
          then [not_supported_warning source_lang target_lang] else [])
         w).
Proof.
  intros Hnone. unfold translate_text, translation_disabled.
  destruct text as [|c text]; simpl.
  { unfold ret. now rewrite log_events_nil. }
  destruct (_ || _); simpl.
  { unfold ret. now rewrite log_events_nil. }
  unfold TranslatorService.translate_text. rewrite Hnone. reflexivity.
Qed.

(** C4. For every text [t] and every language code [L],
    [translate_text(t, L, L)] returns [t] unchanged. *)
Theorem translate_text_same_language ext (t L : string) w :
  fst (translate_text ext t L L w) = Returned t.
Proof.
  rewrite (translate_text_without_model ext t L L w (no_same_language_model L)).
  reflexivity.
Qed.

(** C7. For every text [t] and every source language [L],
    [translate_text(t, L, "none")] returns [t] unchanged: the sentinel target
    language switches translation off, and nothing else happens. *)
Theorem translate_text_none_sentinel ext (t L : string) w :
  translate_text ext t L "none" w = (Returned t, w).
Proof. destruct t; reflexivity. Qed.

(** C8. For every source and target language, [translate_text("", source,
    target)] returns the empty string and raises nothing. *)
Theorem translate_text_empty ext (source_lang target_lang : string) w :
  translate_text ext "" source_lang target_lang w = (Returned "", w).
Proof. reflexivity. Qed.

(** C5, as stated, fails: for the pair [("en", "xx")], which has no model,
    the empty text comes back without any warning. *)
Lemma unsupported_pair_silent :
  config.TRANSLATION_MODELS !! ("en" +:+ "-" +:+ "xx") = None /\
  translate_text services_up "" "en" "xx" fresh_world = (Returned "", fresh_world) /\
  ~ unsupported_pair_always_warns.
Proof.
  assert (Hnone : config.TRANSLATION_MODELS !! ("en" +:+ "-" +:+ "xx") = None)
    by (vm_compute; reflexivity).
  split; [exact Hnone|]. split; [reflexivity|].
  intros Hclaim.
  destruct (Hclaim services_up "" "en" "xx" fresh_world Hnone)
    as (msg & evs & Hrun & Hin).
  cbn in Hrun. injection Hrun as Hw. subst evs.
  now apply elem_of_nil in Hin.
Qed.

(** C5, amended. For every text [t] and every pair [(source, target)]
    without a model in the table, [translate_text(t, source, target)]
    returns [t] unchanged and raises nothing; it leaves the session and the
    database alone; and it shows the "not supported" warning exactly when
    [t] is not empty and [target] is neither ["no"] nor ["none"] (otherwise
    it shows nothing). *)
Theorem translate_text_unsupported_pair ext (t source_lang target_lang : string) w :
  config.TRANSLATION_MODELS !! (source_lang +:+ "-" +:+ target_lang) = None ->
  exists w',
    translate_text ext t source_lang target_lang w = (Returned t, w') /\
    st_session_state w' = st_session_state w /\
    db_rows w' = db_rows w /\
    events w' =
      (events w ++
       if truthy t && negb (translation_disabled target_lang)
       then [not_supported_warning source_lang target_lang] else [])%list.
Proof.
  intros Hnone. eexists. split.
  - apply (translate_text_without_model _ _ _ _ _ Hnone).
  - repeat split.
Qed.

Lemma translate_text_unsupported_pair_witness :
  exists w',
    translate_text services_up "Hello" "en" "xx" fresh_world
      = (Returned "Hello", w') /\
    st_session_state w' = st_session_state fresh_world /\
    db_rows w' = db_rows fresh_world /\
    events w' =
      (events fresh_world ++
       if truthy "Hello" && negb (translation_disabled "xx")
       then [not_supported_warning "en" "xx"] else [])%list.
Proof.
  apply (translate_text_unsupported_pair services_up "Hello" "en" "xx").
  vm_compute. reflexivity.
Defined.

(** ** The synthesizer *)

(** C9. For every voice preference (and every language hint),
    [generate_speech("", voice)] returns [None]; it raises nothing and asks
    nothing of gTTS. *)
Theorem generate_speech_empty ext (voice : string) (language : option string) w :
  generate_speech ext "" voice language w = (Returned None, w).
Proof. reflexivity. Qed.

(** The voice preference is handed down to [text_to_speech], which does
    not look at it. *)
Lemma generate_speech_ignores_voice ext (text voice voice' : string) language :
  generate_speech ext text voice language
  = generate_speech ext text voice' language.
Proof. reflexivity. Qed.

(** Without a language hint, a non-empty text is sent to gTTS once, in the
    language langdetect found. *)
Lemma generate_speech_runs ext (text voice : string) :
  truthy text = true ->
  exists au evs,
    Forall is_notice evs /\
    forall w,
      generate_speech ext text voice None w
        = (Returned au,
           log_events (gTTS text (detected_language ext text) :: evs) w).
Proof.
  intros Htext.
  unfold generate_speech, TTSService.text_to_speech. rewrite Htext. simpl.
  fold (detected_language ext text).
  destruct (gtts ext text (detected_language ext text)) as [b|e].
  - exists (Some b), []. split; [constructor|].
    reflexivity.
  - exists None, [st_error ("Error in text-to-speech conversion: " +:+ e)].
    split; [repeat constructor|].
    intros w. unfold bind, emit, ret. now rewrite log_events_app.
Qed.

(** ** The conversation manager *)

Lemma phrases_not_empty (n : nat) :
  (n < length SignalDecoder.phrases)%nat ->
  truthy (nth n SignalDecoder.phrases "") = true.
Proof.
  intros Hn. simpl in Hn.
  do 20 (destruct n as [|n]; [reflexivity|]). lia.
Qed.

Lemma decoded_phrase_not_empty ext :
  truthy (fst (get_mock_decoded_text ext)) = true.
Proof.
  unfold get_mock_decoded_text, SignalDecoder.decode_signal.
  apply phrases_not_empty.
  pose proof (Z.mod_pos_bound (feature ext)
                (Z.of_nat (length SignalDecoder.phrases))) as Hb.
  simpl length in *. lia.
Qed.

Lemma append_to_history_runs entry w :
  exists w',
    ConversationManager.append_to_history entry w = (Returned tt, w') /\
    st_session_state w' = with_turn entry (st_session_state w) /\
    db_rows w' = db_rows w /\
    events w' = events w.
Proof. eexists. split; [reflexivity|]. repeat split. Qed.

(** For a logged-in user, [save_conversation_log] returns whether the row
    went in; it never touches the session. *)
Lemma save_conversation_log_runs self u ext dir o t au w :
  ConversationManager.user self = Some u ->
  exists ok path w',
    ConversationManager.save_conversation_log self ext dir o t au w
      = (Returned ok, w') /\
    st_session_state w' = st_session_state w /\
    db_rows w' =
      (db_rows w ++
       rows_saved ext {| user_id := id u; direction := dir;
                         original_text := o; translated_text := t;
                         audio_file_path := path |})%list /\
    events w' = (events w ++ save_notice ext)%list.
Proof.
  intros Hu. unfold ConversationManager.save_conversation_log,
    rows_saved, save_notice.
  rewrite Hu. unfold bind, get_session.
  destruct (commit ext) as [|e].
  - eexists true, _, _. split; [reflexivity|].
    cbn. rewrite app_nil_r. repeat split.
  - eexists false, None, _. split; [reflexivity|].
    cbn. rewrite app_nil_r. repeat split.
Qed.

(** The common tail of the three ways to produce a turn: speak the
    translated text, put the turn in the history, count it, log it. *)
Lemma speak_and_record {A} self u ext (tr : string)
    (mk : option bytes -> Z -> message_entry) (dir o : string)
    (k : option bytes -> prog A) w :
  ConversationManager.user self = Some u ->
  truthy tr = true ->
  exists au path evs w',
    (forall w0,
        fst (generate_speech ext tr (voice_type u) None w0) = Returned au) /\
    (voice <- ConversationManager.user_attr self "voice_type" voice_type ;;
     audio_bytes <- generate_speech ext tr voice None ;;
     s <- get_session ;;
     ConversationManager.append_to_history
       (mk audio_bytes (default 0 (message_counter s))) ;;;
     ConversationManager.save_conversation_log self ext dir o tr audio_bytes ;;;
     k audio_bytes) w
    = k au w' /\
    st_session_state w' =
      with_turn (mk au (next_timestamp (st_session_state w)))
                (st_session_state w) /\
    db_rows w' =
      (db_rows w ++
       rows_saved ext {| user_id := id u; direction := dir;
                         original_text := o; translated_text := tr;
                         audio_file_path := path |})%list /\
    events w' = (events w ++ evs)%list /\
    (forall text lang,
        gTTS text lang ∈ evs <->
        text = tr /\ lang = detected_language ext tr) /\
    (exists rest,
        evs = gTTS tr (detected_language ext tr) :: rest /\
        Forall is_notice rest).
Proof.
  intros Hu Htr.
  destruct (generate_speech_runs ext tr (voice_type u) Htr)
    as (au & evs & Hevs & Hrun_s).
  set (w1 := log_events (gTTS tr (detected_language ext tr) :: evs) w).
  set (entry := mk au (next_timestamp (st_session_state w))).
  destruct (append_to_history_runs entry w1) as (w2 & Happ & Hs2 & Hd2 & He2).
  destruct (save_conversation_log_runs self u ext dir o tr au w2 Hu)
    as (ok & path & w3 & Hsave & Hs3 & Hd3 & He3).
  exists au, path,
    (gTTS tr (detected_language ext tr) :: evs ++ save_notice ext)%list, w3.
  split; [|split; [|split; [|split; [|split; [|split]]]]].
  - intros w0. now rewrite Hrun_s.
  - unfold ConversationManager.user_attr. rewrite Hu.
    unfold bind at 1. unfold ret at 1.
    rewrite (bind_returned _ _ _ _ _ (Hrun_s w)). fold w1.
    unfold bind at 1. unfold get_session at 1.
    change (default 0 (message_counter (st_session_state w1)))
      with (next_timestamp (st_session_state w)).
    fold entry.
    rewrite (bind_returned _ _ _ _ _ Happ).
    now rewrite (bind_returned _ _ _ _ _ Hsave).
  - rewrite Hs3, Hs2. reflexivity.
  - rewrite Hd3, Hd2. reflexivity.
  - rewrite He3, He2. subst w1. simpl.
    now rewrite <- app_assoc.
  - intros text lang. rewrite elem_of_cons, elem_of_app.
    split.
    + intros [Heq | [Hin | Hin]].
      * now inversion Heq.
      * rewrite Forall_forall in Hevs. now apply Hevs in Hin.
      * unfold save_notice in Hin. destruct (commit ext).
        -- now apply elem_of_nil in Hin.
        -- apply list_elem_of_singleton in Hin. discriminate.
    + intros [-> ->]. now left.
  - exists (evs ++ save_notice ext)%list. split; [reflexivity|].
    apply Forall_app. split; [exact Hevs|].
    unfold save_notice. destruct (commit ext); repeat constructor.
Qed.

(** Notifications are not synthesis requests. *)
Lemma notices_then_speech (evt evs : list event) (tr l : string) :
  Forall is_notice evt ->
  (forall text lang, gTTS text lang ∈ evs <-> text = tr /\ lang = l) ->
  forall text lang,
    gTTS text lang ∈ (evt ++ evs)%list <-> text = tr /\ lang = l.
Proof.
  intros Hevt Hevs text lang. rewrite elem_of_app, Hevs.
  split; [|now right].
  intros [Hin|H]; [|exact H].
  rewrite Forall_forall in Hevt. now apply Hevt in Hin.
Qed.

(** One call of [simulate_outgoing_message] for a logged-in user. *)
Lemma simulate_outgoing_message_runs self u ext w :
  ConversationManager.user self = Some u ->
  let phrase := fst (get_mock_decoded_text ext) in
  exists tr au path evs w',
    ConversationManager.simulate_outgoing_message self ext w
      = (Returned (phrase, tr, au), w') /\
    (forall w0,
        fst (translate_text ext phrase (native_language u) (target_language u) w0)
        = Returned tr) /\
    (forall w0,
        fst (generate_speech ext tr (voice_type u) None w0) = Returned au) /\
    st_session_state w' =
      with_turn {| sender := "You"; original := phrase; translated := tr;
                   confidence := Some (snd (get_mock_decoded_text ext));
                   audio := au;
                   timestamp := next_timestamp (st_session_state w) |}
                (st_session_state w) /\
    db_rows w' =
      (db_rows w ++
       rows_saved ext {| user_id := id u; direction := "outgoing";
                         original_text := phrase; translated_text := tr;
                         audio_file_path := path |})%list /\
    events w' = (events w ++ evs)%list /\
    (forall text lang,
        gTTS text lang ∈ evs <->
        text = tr /\ lang = detected_language ext tr) /\
    (exists before rest,
        evs = (before ++ gTTS tr (detected_language ext tr) :: rest)%list /\
        Forall is_notice before /\ Forall is_notice rest).
Proof.
  intros Hu phrase.
  destruct (translate_text_runs ext phrase (native_language u)
              (target_language u)) as (tr & evt & Htr & Hevt & Hrun_t).
  subst phrase. rewrite decoded_phrase_not_empty in Htr.
  destruct (get_mock_decoded_text ext) as [phrase conf] eqn:Hdec.
  simpl fst in *. simpl snd.
  destruct (speak_and_record self u ext tr
              (fun au ts => {| sender := "You"; original := phrase;
                               translated := tr; confidence := Some conf;
                               audio := au; timestamp := ts |})
              "outgoing" phrase
              (fun au => ret (phrase, tr, au)) (log_events evt w) Hu Htr)
    as (au & path & evs & w' & Hau & Hrun & Hs & Hd & He & Hg
        & rest & Hevs & Hrest).
  exists tr, au, path, (evt ++ evs)%list, w'.
  split; [|split; [|split; [|split; [|split; [|split; [|split]]]]]].
  - unfold ConversationManager.simulate_outgoing_message. rewrite Hdec.
    unfold ConversationManager.user_attr at 1 2. rewrite Hu.
    unfold bind at 1. unfold ret at 1.
    unfold bind at 1. unfold ret at 1.
    rewrite (bind_returned _ _ _ _ _ (Hrun_t w)).
    exact Hrun.
  - intros w0. now rewrite Hrun_t.
  - exact Hau.
  - exact Hs.
  - exact Hd.
  - rewrite He. simpl. now rewrite app_assoc.
  - now apply notices_then_speech.
  - exists evt, rest. split; [now rewrite Hevs|]. now split.
Qed.

Lemma partner_text_not_empty ext : truthy (partner_text ext) = true.
Proof.
  unfold partner_text.
  destruct (transcribe_speech ext (mock_audio ext)) as [[|c s]|]; reflexivity.
Qed.

(** One call of [simulate_incoming_message] for a logged-in user. *)
Lemma simulate_incoming_message_runs self u ext w :
  ConversationManager.user self = Some u ->
  exists tr au path evs w',
    ConversationManager.simulate_incoming_message self ext w
      = (Returned (partner_text ext, tr, au), w') /\
    (forall w0,
        fst (translate_text ext (partner_text ext) (target_language u)
               (native_language u) w0)
        = Returned tr) /\
    (forall w0,
        fst (generate_speech ext tr (voice_type u) None w0) = Returned au) /\
    st_session_state w' =
      with_turn {| sender := "Partner"; original := partner_text ext;
                   translated := tr; confidence := None; audio := au;
                   timestamp := next_timestamp (st_session_state w) |}
                (st_session_state w) /\
    db_rows w' =
      (db_rows w ++
       rows_saved ext {| user_id := id u; direction := "incoming";
                         original_text := partner_text ext;
                         translated_text := tr;
                         audio_file_path := path |})%list /\
    events w' = (events w ++ evs)%list /\
    (forall text lang,
        gTTS text lang ∈ evs <->
        text = tr /\ lang = detected_language ext tr).
Proof.
  intros Hu.
  destruct (translate_text_runs ext (partner_text ext) (target_language u)
              (native_language u)) as (tr & evt & Htr & Hevt & Hrun_t).
  rewrite partner_text_not_empty in Htr.
  destruct (speak_and_record self u ext tr
              (fun au ts => {| sender := "Partner";
                               original := partner_text ext;
                               translated := tr; confidence := None;
                               audio := au; timestamp := ts |})
              "incoming" (partner_text ext)
              (fun au => ret (partner_text ext, tr, au)) (log_events evt w)
              Hu Htr)
    as (au & path & evs & w' & Hau & Hrun & Hs & Hd & He & Hg & _).
  exists tr, au, path, (evt ++ evs)%list, w'.
  split; [|split; [|split; [|split; [|split; [|split]]]]].
  - unfold ConversationManager.simulate_incoming_message.
    fold (partner_text ext).
    unfold ConversationManager.user_attr at 1 2. rewrite Hu.
    unfold bind at 1. unfold ret at 1.
    unfold bind at 1. unfold ret at 1.
    rewrite (bind_returned _ _ _ _ _ (Hrun_t w)).
    exact Hrun.
  - intros w0. now rewrite Hrun_t.
  - exact Hau.
  - exact Hs.
  - exact Hd.
  - rewrite He. simpl. now rewrite app_assoc.
  - now apply notices_then_speech.
Qed.

(** Either call, for a logged-in user: it returns, and the session gains
    exactly the turn it returns, stamped with the counter. *)
Lemma perform_runs self u c ext w :
  ConversationManager.user self = Some u ->
  exists e row w',
    perform self c ext w = (Returned (summary e), w') /\
    sender e = sender_of c /\
    timestamp e = next_timestamp (st_session_state w) /\
    st_session_state w' = with_turn e (st_session_state w) /\
    db_rows w' = (db_rows w ++ rows_saved ext row)%list.
Proof.
  intros Hu. destruct c; simpl.
  - destruct (simulate_outgoing_message_runs self u ext w Hu)
      as (tr & au & path & evs & w' & Hrun & _ & _ & Hs & Hd & _).
    exists {| sender := "You"; original := fst (get_mock_decoded_text ext);
              translated := tr;
              confidence := Some (snd (get_mock_decoded_text ext));
              audio := au;
              timestamp := next_timestamp (st_session_state w) |}.
    eexists _, w'. split; [exact Hrun|].
    split; [reflexivity|]. split; [reflexivity|]. split; [exact Hs|exact Hd].
  - destruct (simulate_incoming_message_runs self u ext w Hu)
      as (tr & au & path & evs & w' & Hrun & _ & _ & Hs & Hd & _).
    exists {| sender := "Partner"; original := partner_text ext;
              translated := tr; confidence := None; audio := au;
              timestamp := next_timestamp (st_session_state w) |}.
    eexists _, w'. split; [exact Hrun|].
    split; [reflexivity|]. split; [reflexivity|]. split; [exact Hs|exact Hd].
Qed.

(** The session a call leaves behind does not depend on what the database
    answers. *)
Lemma perform_session_ignores_commit self u c ext fate w :
  ConversationManager.user self = Some u ->
  st_session_state (snd (perform self c (with_commit fate ext) w))
  = st_session_state (snd (perform self c ext w)).
Proof.
  intros Hu. destruct c; simpl.
  - destruct (simulate_outgoing_message_runs self u ext w Hu)
      as (tr & au & path & evs & w' & Hrun & Htr & Hau & Hs & _).
    destruct (simulate_outgoing_message_runs self u (with_commit fate ext) w Hu)
      as (tr' & au' & path' & evs' & w'' & Hrun' & Htr' & Hau' & Hs' & _).
    rewrite Hrun, Hrun'. simpl. rewrite Hs, Hs'.
    specialize (Htr w). specialize (Htr' w).
    change (fst (translate_text ext (fst (get_mock_decoded_text ext))
                   (native_language u) (target_language u) w)
            = Returned tr') in Htr'.
    assert (tr' = tr) as -> by congruence.
    specialize (Hau w). specialize (Hau' w).
    change (fst (generate_speech ext tr (voice_type u) None w) = Returned au')
      in Hau'.
    assert (au' = au) as -> by congruence.
    reflexivity.
  - destruct (simulate_incoming_message_runs self u ext w Hu)
      as (tr & au & path & evs & w' & Hrun & Htr & Hau & Hs & _).
    destruct (simulate_incoming_message_runs self u (with_commit fate ext) w Hu)
      as (tr' & au' & path' & evs' & w'' & Hrun' & Htr' & Hau' & Hs' & _).
    rewrite Hrun, Hrun'. simpl. rewrite Hs, Hs'.
    specialize (Htr w). specialize (Htr' w).
    change (fst (translate_text ext (partner_text ext)
                   (target_language u) (native_language u) w)
            = Returned tr') in Htr'.
    assert (tr' = tr) as -> by congruence.
    specialize (Hau w). specialize (Hau' w).
    change (fst (generate_speech ext tr (voice_type u) None w) = Returned au')
      in Hau'.
    assert (au' = au) as -> by congruence.
    reflexivity.
Qed.

Lemma seqZ_increasing (m : Z) (n : nat) :
  StronglySorted Z.lt (seqZ m (Z.of_nat n)).
Proof.
  revert m. induction n as [|n IH]; intros m.
  - rewrite seqZ_nil by lia. constructor.
  - rewrite seqZ_cons by lia.
    replace (Z.pred (Z.of_nat (S n))) with (Z.of_nat n) by lia.
    constructor; [apply IH|].
    apply Forall_forall. intros x Hx. apply elem_of_seqZ in Hx. lia.
Qed.

(** A whole session of calls returns, one turn per call, stamped with
    consecutive counter values. *)
Lemma perform_all_runs self u script :
  ConversationManager.user self = Some u ->
  forall w,
  exists new w',
    perform_all self script w = (Returned (summary <$> new), w') /\
    conversation_history (st_session_state w')
    = (conversation_history (st_session_state w) ++ new)%list /\
    Forall2 (fun c e => sender e = sender_of (fst c)) script new /\
    timestamp <$> new
    = seqZ (next_timestamp (st_session_state w)) (Z.of_nat (length script)).
Proof.
  intros Hu. induction script as [|[c ext] script IH]; intros w.
  - exists [], w. split; [reflexivity|]. split; [now rewrite app_nil_r|].
    split; [constructor|reflexivity].
  - destruct (perform_runs self u c ext w Hu)
      as (e & row & w1 & Hrun & Hsender & Hstamp & Hs & _).
    destruct (IH w1) as (new & w' & Hrest & Hhist & Hsenders & Hstamps).
    exists (e :: new), w'.
    split; [|split; [|split]].
    + simpl perform_all.
      rewrite (bind_returned _ _ _ _ _ Hrun).
      now rewrite (bind_returned _ _ _ _ _ Hrest).
    + rewrite Hhist, Hs. simpl. now rewrite <- app_assoc.
    + constructor; [exact Hsender|exact Hsenders].
    + rewrite fmap_cons, Hstamps, Hstamp, Hs.
      rewrite (seqZ_cons _ (Z.of_nat (length ((c, ext) :: script))))
        by (simpl length; lia).
      replace (next_timestamp (with_turn e (st_session_state w)))
        with (Z.succ (next_timestamp (st_session_state w)))
        by (unfold with_turn, next_timestamp; simpl; lia).
      replace (Z.pred (Z.of_nat (length ((c, ext) :: script))))
        with (Z.of_nat (length script))
        by (simpl length; lia).
      reflexivity.
Qed.

(** C1, as stated, fails: Ana's target language is Spanish, her phrase is
    translated to Spanish, and the one request to gTTS asks for the language
    langdetect reported, here Portuguese. *)
Lemma outgoing_speech_language_is_detected :
  events (snd (ConversationManager.simulate_outgoing_message
                 {| ConversationManager.user := Some ana |}
                 services_up fresh_world))
  = [gTTS "Necesito ayuda" "pt"] /\
  target_language ana = "es" /\
  ~ outgoing_speech_in_target_language.
Proof.
  assert (Hrun :
    ConversationManager.simulate_outgoing_message
      {| ConversationManager.user := Some ana |} services_up fresh_world
    = (Returned ("I need help", "Necesito ayuda",
                 Some [Byte.x49; Byte.x44; Byte.x33]),
       {| st_session_state :=
            with_turn {| sender := "You"; original := "I need help";
                         translated := "Necesito ayuda";
                         confidence := Some (QArith_base.Qmake 85 100);
                         audio := Some [Byte.x49; Byte.x44; Byte.x33];
                         timestamp := 0 |} fresh_session;
          db_rows := [ {| user_id := 7; direction := "outgoing";
                          original_text := "I need help";
                          translated_text := "Necesito ayuda";
                          audio_file_path := Some "audio_logs/7_outgoing_1.wav" |} ];
          events := [gTTS "Necesito ayuda" "pt"] |}))
    by (vm_compute; reflexivity).
  split; [now rewrite Hrun|]. split; [reflexivity|].
  intros Hclaim.
  destruct (Hclaim {| ConversationManager.user := Some ana |} ana services_up
              fresh_world eq_refl)
    as (o & t & a & w' & evs & Hrun' & Hev & Hin).
  rewrite Hrun in Hrun'. injection Hrun' as <- <- <- <-.
  simpl in Hev. subst evs.
  apply list_elem_of_singleton in Hin. discriminate.
Qed.

(** C1, amended. For every authenticated user, [simulate_outgoing_message]
    returns the decoded phrase, its translation from the native to the
    target language, and the audio of [generate_speech(translated_text,
    user.voice_type)], called without a language.  The one request it sends
    to gTTS is for the translated text in the language langdetect finds in
    that text (English when langdetect throws): the events of the call are
    notifications, then that request, then notifications. *)
Theorem simulate_outgoing_message_speech self u ext w :
  ConversationManager.user self = Some u ->
  exists tr au w' evs,
    ConversationManager.simulate_outgoing_message self ext w
      = (Returned (fst (get_mock_decoded_text ext), tr, au), w') /\
    (forall w0,
        fst (translate_text ext (fst (get_mock_decoded_text ext))
               (native_language u) (target_language u) w0)
        = Returned tr) /\
    (forall w0,
        fst (generate_speech ext tr (voice_type u) None w0) = Returned au) /\
    events w' = (events w ++ evs)%list /\
    (forall text lang,
        gTTS text lang ∈ evs <->
        text = tr /\ lang = detected_language ext tr) /\
    (exists before rest,
        evs = (before ++ gTTS tr (detected_language ext tr) :: rest)%list /\
        Forall is_notice before /\ Forall is_notice rest).
Proof.
  intros Hu.
  destruct (simulate_outgoing_message_runs self u ext w Hu)
    as (tr & au & path & evs & w' & Hrun & Htr & Hau & _ & _ & He & Hg & Hone).
  now exists tr, au, w', evs.
Qed.

Lemma simulate_outgoing_message_speech_witness :
  exists tr au w' evs,
    ConversationManager.simulate_outgoing_message
      {| ConversationManager.user := Some ana |} services_up fresh_world
      = (Returned (fst (get_mock_decoded_text services_up), tr, au), w') /\
    (forall w0,
        fst (translate_text services_up (fst (get_mock_decoded_text services_up))
               (native_language ana) (target_language ana) w0)
        = Returned tr) /\
    (forall w0,
        fst (generate_speech services_up tr (voice_type ana) None w0)
        = Returned au) /\
    events w' = (events fresh_world ++ evs)%list /\
    (forall text lang,
        gTTS text lang ∈ evs <->
        text = tr /\ lang = detected_language services_up tr) /\
    (exists before rest,
        evs = (before ++ gTTS tr (detected_language services_up tr) :: rest)%list /\
        Forall is_notice before /\ Forall is_notice rest).
Proof.
  apply (simulate_outgoing_message_speech
           {| ConversationManager.user := Some ana |} ana services_up fresh_world).
  reflexivity.
Defined.

(** C2. In a session of a logged-in user, every call in any sequence of
    calls of [simulate_outgoing_message] (possibly mixed with incoming
    ones), whatever the translator, the synthesizer and the database do,
    returns; the history grows by one turn per call, in order; the turn of
    an outgoing call has sender ["You"] and is the one returned; and the
    timestamps of the new turns are the consecutive counter values, hence
    strictly increasing. *)
Theorem outgoing_turns_numbered self u (script : list (call * externals)) w :
  ConversationManager.user self = Some u ->
  exists new w',
    perform_all self script w = (Returned (summary <$> new), w') /\
    conversation_history (st_session_state w')
    = (conversation_history (st_session_state w) ++ new)%list /\
    Forall2 (fun c e => sender e = sender_of (fst c)) script new /\
    (forall i e,
        new !! i = Some e ->
        timestamp e = next_timestamp (st_session_state w) + Z.of_nat i) /\
    StronglySorted Z.lt (timestamp <$> new).
Proof.
  intros Hu.
  destruct (perform_all_runs self u script Hu w)
    as (new & w' & Hrun & Hhist & Hsenders & Hstamps).
  exists new, w'. repeat split; try assumption.
  - intros i e Hi.
    assert (Hl : (timestamp <$> new) !! i = Some (timestamp e))
      by (now rewrite list_lookup_fmap, Hi).
    rewrite Hstamps in Hl. now apply lookup_seqZ in Hl.
  - rewrite Hstamps. apply seqZ_increasing.
Qed.

Lemma outgoing_turns_numbered_witness :
  exists new w',
    perform_all {| ConversationManager.user := Some ana |}
      [(outgoing, services_down); (incoming, services_up);
       (outgoing, services_up)] fresh_world
    = (Returned (summary <$> new), w') /\
    conversation_history (st_session_state w')
    = (conversation_history (st_session_state fresh_world) ++ new)%list /\
    Forall2 (fun c e => sender e = sender_of (fst c))
      [(outgoing, services_down); (incoming, services_up);
       (outgoing, services_up)] new /\
    (forall i e,
        new !! i = Some e ->
        timestamp e = next_timestamp (st_session_state fresh_world) + Z.of_nat i) /\
    StronglySorted Z.lt (timestamp <$> new).
Proof.
  apply (outgoing_turns_numbered {| ConversationManager.user := Some ana |} ana).
  reflexivity.
Defined.

(** C3. For a logged-in user and either direction, when the database
    refuses the row ([save_conversation_log] reports the error and returns
    [False], touching no session state), the call still returns its turn;
    the session holds that turn at the end of the history and the counter is
    one higher; no row is added; and the session is the very one the same
    call leaves when the row is committed. *)
Theorem persistence_failure_keeps_turn self u c ext msg w :
  ConversationManager.user self = Some u ->
  commit ext = CommitThrew msg ->
  (forall dir o t au w0,
      fst (ConversationManager.save_conversation_log self ext dir o t au w0)
      = Returned false /\
      st_session_state
        (snd (ConversationManager.save_conversation_log self ext dir o t au w0))
      = st_session_state w0) /\
  exists e w',
    perform self c ext w = (Returned (summary e), w') /\
    sender e = sender_of c /\
    conversation_history (st_session_state w')
    = (conversation_history (st_session_state w) ++ [e])%list /\
    message_counter (st_session_state w')
    = Some (next_timestamp (st_session_state w) + 1) /\
    db_rows w' = db_rows w /\
    st_session_state w'
    = st_session_state (snd (perform self c (with_commit Committed ext) w)).
Proof.
  intros Hu Hfail. split.
  - intros dir o t au w0.
    unfold ConversationManager.save_conversation_log.
    rewrite Hu, Hfail. split; reflexivity.
  - destruct (perform_runs self u c ext w Hu)
      as (e & row & w' & Hrun & Hsender & _ & Hs & Hd).
    exists e, w'.
    split; [exact Hrun|]. split; [exact Hsender|].
    split; [now rewrite Hs|]. split; [now rewrite Hs|].
    split.
    + rewrite Hd. unfold rows_saved. rewrite Hfail. apply app_nil_r.
    + rewrite (perform_session_ignores_commit self u c ext Committed w Hu).
      now rewrite Hrun.
Qed.

Lemma persistence_failure_keeps_turn_witness :
  (forall dir o t au w0,
      fst (ConversationManager.save_conversation_log
             {| ConversationManager.user := Some ana |} services_down
             dir o t au w0)
      = Returned false /\
      st_session_state
        (snd (ConversationManager.save_conversation_log
                {| ConversationManager.user := Some ana |} services_down
                dir o t au w0))
      = st_session_state w0) /\
  exists e w',
    perform {| ConversationManager.user := Some ana |} incoming services_down
      fresh_world
    = (Returned (summary e), w') /\
    sender e = sender_of incoming /\
    conversation_history (st_session_state w')
    = (conversation_history (st_session_state fresh_world) ++ [e])%list /\
    message_counter (st_session_state w')
    = Some (next_timestamp (st_session_state fresh_world) + 1) /\
    db_rows w' = db_rows fresh_world /\
    st_session_state w'
    = st_session_state
        (snd (perform {| ConversationManager.user := Some ana |} incoming
                (with_commit Committed services_down) fresh_world)).
Proof.
  apply (persistence_failure_keeps_turn
           {| ConversationManager.user := Some ana |} ana incoming
           services_down "database is locked" fresh_world);
    reflexivity.
Defined.

(** C6. For a logged-in user, when the transcription yields nothing
    ([None] or an empty text), [simulate_incoming_message] takes
    ["Sorry, I couldn't understand that."] as the original text and still
    makes a partner turn, whose translated text is the translation of that
    sentence from the target language to the native language. *)
Theorem incoming_fallback_text self u ext w :
  ConversationManager.user self = Some u ->
  truthy_opt (transcribe_speech ext (mock_audio ext)) = false ->
  exists tr au w',
    ConversationManager.simulate_incoming_message self ext w
      = (Returned ("Sorry, I couldn't understand that.", tr, au), w') /\
    (forall w0,
        fst (translate_text ext "Sorry, I couldn't understand that."
               (target_language u) (native_language u) w0)
        = Returned tr) /\
    st_session_state w' =
      with_turn {| sender := "Partner";
                   original := "Sorry, I couldn't understand that.";
                   translated := tr; confidence := None; audio := au;
                   timestamp := next_timestamp (st_session_state w) |}
                (st_session_state w).
Proof.
  intros Hu Hnothing.
  destruct (simulate_incoming_message_runs self u ext w Hu)
    as (tr & au & path & evs & w' & Hrun & Htr & _ & Hs & _).
  assert (Htext : partner_text ext = "Sorry, I couldn't understand that.")
    by (unfold partner_text; now rewrite Hnothing).
  rewrite Htext in *.
  now exists tr, au, w'.
Qed.

Lemma incoming_fallback_text_witness :
  exists tr au w',
    ConversationManager.simulate_incoming_message
      {| ConversationManager.user := Some ana |} services_down fresh_world
      = (Returned ("Sorry, I couldn't understand that.", tr, au), w') /\
    (forall w0,
        fst (translate_text services_down "Sorry, I couldn't understand that."
               (target_language ana) (native_language ana) w0)
        = Returned tr) /\
    st_session_state w' =
      with_turn {| sender := "Partner";
                   original := "Sorry, I couldn't understand that.";
                   translated := tr; confidence := None; audio := au;
                   timestamp := next_timestamp (st_session_state fresh_world) |}
                (st_session_state fresh_world).
Proof.
  apply (incoming_fallback_text
           {| ConversationManager.user := Some ana |} ana services_down
           fresh_world);
    reflexivity.
Defined.

(** ** The manual message *)

(** From the manual input box on: the typed text is translated from English
    to the native language on every run; when the button is pressed and the
    text is not empty the message is sent and the page reruns. *)
Lemma manual_input_runs self u ext (manual_text : string) w :
  ConversationManager.user self = Some u ->
  truthy manual_text = true ->
  exists nt tr au path w',
    (native <- ConversationManager.user_attr self "native_language"
                 native_language ;;
     native_translated_text <- translate_text ext manual_text "en" native ;;
     if true && truthy manual_text then
       ConversationManager.send_manual_message self ext manual_text
         native_translated_text
     else ret tt) w
    = (Raised RerunException, w') /\
    (forall w0,
        fst (translate_text ext manual_text "en" (native_language u) w0)
        = Returned nt) /\
    (forall w0,
        fst (translate_text ext nt (native_language u) (target_language u) w0)
        = Returned tr) /\
    st_session_state w' =
      with_turn {| sender := "You"; original := nt; translated := tr;
                   confidence := Some (QArith_base.Qmake 1 1); audio := au;
                   timestamp := next_timestamp (st_session_state w) |}
                (st_session_state w) /\
    db_rows w' =
      (db_rows w ++
       rows_saved ext {| user_id := id u; direction := "outgoing";
                         original_text := manual_text; translated_text := tr;
                         audio_file_path := path |})%list.
Proof.
  intros Hu Hmanual.
  destruct (translate_text_runs ext manual_text "en" (native_language u))
    as (nt & ev1 & Hnt & _ & Hrun1).
  rewrite Hmanual in Hnt.
  destruct (translate_text_runs ext nt (native_language u) (target_language u))
    as (tr & ev2 & Htr & _ & Hrun2).
  rewrite Hnt in Htr.
  destruct (speak_and_record (A:=unit) self u ext tr
              (fun au ts => {| sender := "You"; original := nt;
                               translated := tr;
                               confidence := Some (QArith_base.Qmake 1 1);
                               audio := au; timestamp := ts |})
              "outgoing" manual_text
              (fun _ => emit (st_success "Manual message sent!") ;;;
                        raise RerunException)
              (log_events ev2 (log_events ev1 w)) Hu Htr)
    as (au & path & evs & w' & _ & Hrun & Hs & Hd & _).
  exists nt, tr, au, path, (log_events [st_success "Manual message sent!"] w').
  split; [|split; [|split; [|split]]].
  - unfold ConversationManager.user_attr at 1. rewrite Hu.
    unfold bind at 1. unfold ret at 1.
    rewrite (bind_returned _ _ _ _ _ (Hrun1 w)).
    rewrite Hmanual. cbn [andb].
    unfold ConversationManager.send_manual_message.
    unfold ConversationManager.user_attr at 1 2. rewrite Hu.
    unfold bind at 1. unfold ret at 1.
    unfold bind at 1. unfold ret at 1.
    rewrite (bind_returned _ _ _ _ _ (Hrun2 (log_events ev1 w))).
    exact Hrun.
  - intros w0. now rewrite Hrun1.
  - intros w0. now rewrite Hrun2.
  - exact Hs.
  - exact Hd.
Qed.

(** C10. In a run of the conversation page where a logged-in user sends a
    non-empty manual text (and neither simulation takes the run over), the
    run ends in the rerun; the turn added to the session has the
    English-to-native translation of the typed text as its original text;
    the row handed to the database, present in the table when it commits,
    has the typed text itself as [original_text]; so the two differ whenever
    that translation changes the text. *)
Theorem manual_message_original_texts self u ext ui w :
  ConversationManager.user self = Some u ->
  button_simulate_your_message ui && toggle_active_decoding ui = false ->
  button_simulate_partner_message ui = false ->
  button_send_manual_message ui = true ->
  truthy (text_input_manual ui) = true ->
  exists nt e row w',
    ConversationManager.conversation_interface self ext ui w
      = (Raised RerunException, w') /\
    (forall w0,
        fst (translate_text ext (text_input_manual ui) "en"
               (native_language u) w0)
        = Returned nt) /\
    conversation_history (st_session_state w')
    = (conversation_history (st_session_state w) ++ [e])%list /\
    sender e = "You" /\
    original e = nt /\
    db_rows w' = (db_rows w ++ rows_saved ext row)%list /\
    direction row = "outgoing" /\
    original_text row = text_input_manual ui /\
    translated_text row = translated e /\
    (nt <> text_input_manual ui -> original_text row <> original e).
Proof.
  intros Hu Hb1 Hb2 Hb3 Hmanual.
  unfold ConversationManager.conversation_interface.
  rewrite Hu, Hb2, Hb3.
  unfold bind at 1. unfold get_session at 1.
  unfold bind at 1. unfold put_session at 1.
  set (w0 := {| st_session_state := _; db_rows := db_rows w;
                events := events w |}).
  assert (Hblock : exists evs,
    (if button_simulate_your_message ui then
       s <- get_session ;;
       if active_decoding s then
         ConversationManager.simulate_outgoing_message self ext ;;;
         emit (st_success "Message sent successfully!") ;;;
         raise RerunException
       else
         emit (st_warning
                 "Active decoding is disabled. Enable it to send messages.")
     else ret tt) w0 = (Returned tt, log_events evs w0)).
  { destruct (button_simulate_your_message ui).
    - destruct (toggle_active_decoding ui) eqn:Ht; [discriminate|].
      eexists [_]. unfold bind, get_session. subst w0. reflexivity.
    - exists []. unfold ret. now rewrite log_events_nil. }
  destruct Hblock as (evs & Hblock).
  rewrite (bind_returned _ _ _ _ _ Hblock).
  unfold bind at 1. unfold ret at 1.
  destruct (manual_input_runs self u ext (text_input_manual ui)
              (log_events evs w0) Hu Hmanual)
    as (nt & tr & au & path & w' & Hrun & Hnt & _ & Hs & Hd).
  exists nt.
  exists {| sender := "You"; original := nt; translated := tr;
            confidence := Some (QArith_base.Qmake 1 1); audio := au;
            timestamp := next_timestamp (st_session_state (log_events evs w0)) |}.
  exists {| user_id := id u; direction := "outgoing";
            original_text := text_input_manual ui; translated_text := tr;
            audio_file_path := path |}.
  exists w'.
  split; [exact Hrun|]. split; [exact Hnt|].
  split; [now rewrite Hs|].
  split; [reflexivity|]. split; [reflexivity|].
  split; [exact Hd|].
  split; [reflexivity|]. split; [reflexivity|]. split; [reflexivity|].
  simpl. congruence.
Qed.

Lemma manual_message_original_texts_witness :
  exists nt e row w',
    ConversationManager.conversation_interface
      {| ConversationManager.user := Some luis |} services_up typed_help
      fresh_world
      = (Raised RerunException, w') /\
    (forall w0,
        fst (translate_text services_up (text_input_manual typed_help) "en"
               (native_language luis) w0)
        = Returned nt) /\
    conversation_history (st_session_state w')
    = (conversation_history (st_session_state fresh_world) ++ [e])%list /\
    sender e = "You" /\
    original e = nt /\
    db_rows w' = (db_rows fresh_world ++ rows_saved services_up row)%list /\
    direction row = "outgoing" /\
    original_text row = text_input_manual typed_help /\
    translated_text row = translated e /\
    (nt <> text_input_manual typed_help -> original_text row <> original e).
Proof.
  apply (manual_message_original_texts
           {| ConversationManager.user := Some luis |} luis services_up
           typed_help fresh_world);
    reflexivity.
Defined.

(** Luis types "I need help": his session shows the Spanish sentence as the
    original text, the table keeps the English one. *)
Example manual_message_luis :
  let w' := snd (ConversationManager.conversation_interface
                   {| ConversationManager.user := Some luis |} services_up
                   typed_help fresh_world) in
  original <$> conversation_history (st_session_state w') = ["Necesito ayuda"] /\
  original_text <$> db_rows w' = ["I need help"].
Proof. vm_compute. split; reflexivity. Qed.

(** * Further properties *)

(** ** The table of models and the translator *)

Lemma hyphens_append (s1 s2 : string) :
  hyphens (s1 +:+ s2) = (hyphens s1 + hyphens s2)%nat.
Proof.
  induction s1 as [|c s1 IH]; simpl; [reflexivity|]. rewrite IH. lia.
Qed.

(** A key with a single hyphen comes from one pair of languages only. *)
Lemma split_hyphen_unique (s t k : string) :
  s +:+ "-" +:+ t = k -> hyphens k = 1%nat -> split_hyphen k = Some (s, t).
Proof.
  intros <-. induction s as [|c s IH]; intros Hone; [reflexivity|].
  simpl in Hone |- *.
  pose proof (hyphens_append s ("-" +:+ t)) as Happ. simpl in Happ.
  destruct (Ascii.eqb c "-"); [lia|].
  now rewrite IH by lia.
Qed.

Ltac split_key H :=
  apply split_hyphen_unique in H; [|reflexivity];
  vm_compute in H; injection H as <- <-.

Ltac in_listed :=
  repeat first [ apply list_elem_of_here | apply list_elem_of_further ].

Lemma model_table_sound (s t name : string) :
  config.TRANSLATION_MODELS !! (s +:+ "-" +:+ t) = Some name ->
  ((s = "en" /\ t ∈ config.SUPPORTED_LANGUAGES /\ t <> "en") \/
   (t = "en" /\ s ∈ config.SUPPORTED_LANGUAGES /\ s <> "en")) /\
  name = "Helsinki-NLP/opus-mt-" +:+ s +:+ "-" +:+ t.
Proof.
  intros Hlook. apply elem_of_list_to_map_2 in Hlook.
  unfold config.TRANSLATION_MODELS_items in Hlook.
  repeat (apply elem_of_cons in Hlook as [Hlook|Hlook];
          [ injection Hlook as Hk ->; split_key Hk;
            (split; [|reflexivity]);
            first [ left; split; [reflexivity|]; split; [in_listed|discriminate]
                  | right; split; [reflexivity|]; split; [in_listed|discriminate] ]
          | ]).
  now apply elem_of_nil in Hlook.
Qed.

Lemma model_table_complete (s t : string) :
  (s = "en" /\ t ∈ config.SUPPORTED_LANGUAGES /\ t <> "en") \/
  (t = "en" /\ s ∈ config.SUPPORTED_LANGUAGES /\ s <> "en") ->
  config.TRANSLATION_MODELS !! (s +:+ "-" +:+ t)
  = Some ("Helsinki-NLP/opus-mt-" +:+ s +:+ "-" +:+ t).
Proof.
  unfold config.SUPPORTED_LANGUAGES.
  intros [(-> & Hin & Hne) | (-> & Hin & Hne)];
    repeat (apply elem_of_cons in Hin as [->|Hin];
            [first [congruence | vm_compute; reflexivity]|]);
    now apply elem_of_nil in Hin.
Qed.

(** X1. The table holds a model for the pair [(s, t)] exactly when one of
    the two is English and the other is one of the nine other supported
    languages; the model is then [Helsinki-NLP/opus-mt-s-t]. *)
Theorem translation_model_table (s t name : string) :
  config.TRANSLATION_MODELS !! (s +:+ "-" +:+ t) = Some name <->
  ((s = "en" /\ t ∈ config.SUPPORTED_LANGUAGES /\ t <> "en") \/
   (t = "en" /\ s ∈ config.SUPPORTED_LANGUAGES /\ s <> "en")) /\
  name = "Helsinki-NLP/opus-mt-" +:+ s +:+ "-" +:+ t.
Proof.
  split; [apply model_table_sound|].
  intros [Hpair ->]. now apply model_table_complete.
Qed.

Lemma model_target_not_disabled (s t name : string) :
  config.TRANSLATION_MODELS !! (s +:+ "-" +:+ t) = Some name ->
  translation_disabled t = false.
Proof.
  intros Hlook. apply model_table_sound in Hlook as [Hpair _].
  destruct Hpair as [(_ & Hin & _) | (-> & _)]; [|reflexivity].
  unfold config.SUPPORTED_LANGUAGES in Hin.
  repeat (apply elem_of_cons in Hin as [->|Hin]; [reflexivity|]).
  now apply elem_of_nil in Hin.
Qed.

(** X2. Between two languages neither of which is English there is no
    model: [translate_text] hands the text back, with the "not supported"
    warning when the text is not empty and translation is not switched
    off. *)
Theorem translate_text_non_english_pair ext (text s t : string) w :
  s <> "en" -> t <> "en" ->
  translate_text ext text s t w
  = (Returned text,
     log_events
       (if truthy text && negb (translation_disabled t)
        then [not_supported_warning s t] else [])
       w).
Proof.
  intros Hs Ht. apply translate_text_without_model.
  destruct (config.TRANSLATION_MODELS !! (s +:+ "-" +:+ t)) as [name|] eqn:Hlook;
    [|reflexivity].
  apply model_table_sound in Hlook as [[(? & _) | (? & _)] _]; congruence.
Qed.

Lemma translate_text_non_english_pair_witness :
  translate_text services_up "Hola" "es" "fr" fresh_world
  = (Returned "Hola",
     log_events
       (if truthy "Hola" && negb (translation_disabled "fr")
        then [not_supported_warning "es" "fr"] else [])
       fresh_world).
Proof.
  apply (translate_text_non_english_pair services_up "Hola" "es" "fr");
    discriminate.
Defined.

(** X3. Whatever the services do, [translate_text] returns.  What it
    returns is the text itself or what the pair's model made of it; it is
    empty only for the empty text; the session and the table of logs are
    left alone and only notifications are added. *)
Theorem translate_text_result ext (text s t : string) w :
  exists r evs,
    translate_text ext text s t w = (Returned r, log_events evs w) /\
    truthy r = truthy text /\
    (r = text \/
     exists name,
       config.TRANSLATION_MODELS !! (s +:+ "-" +:+ t) = Some name /\
       from_pretrained ext name = Done tt /\
       marian ext name text = Done r) /\
    Forall is_notice evs.
Proof.
  unfold translate_text.
  destruct text as [|c text]; simpl.
  { exists "", []. unfold ret. rewrite log_events_nil.
    repeat split; [now left | constructor]. }
  destruct (_ || _).
  { exists (String c text), []. unfold ret. rewrite log_events_nil.
    repeat split; [now left | constructor]. }
  unfold TranslatorService.translate_text,
    TranslatorService.load_model_and_tokenizer.
  destruct (config.TRANSLATION_MODELS !! _) as [name|].
  - destruct (from_pretrained ext name) as [[]|e] eqn:Hload.
    + destruct (marian ext name (String c text)) as [[|c' tr]|e] eqn:Hm.
      * exists (String c text), []. unfold bind, ret. rewrite Hm, log_events_nil.
        repeat split; [now left | constructor].
      * exists (String c' tr), []. unfold bind, ret. rewrite Hm, log_events_nil.
        repeat split; [right; now exists name | constructor].
      * eexists (String c text), [_]. unfold bind, emit, ret. rewrite Hm.
        repeat split; [now left | repeat constructor].
    + eexists (String c text), [_; _]. unfold bind, emit, ret.
      rewrite log_events_app.
      repeat split; [now left | repeat constructor].
  - eexists (String c text), [_]. unfold bind, emit, ret.
    repeat split; [now left | repeat constructor].
Qed.

(** X4. When the pair has a model, the model loads and it turns a
    non-empty text into a non-empty one, [translate_text] returns the
    model's text and shows nothing. *)
Theorem translate_text_model_success ext (text s t name tr : string) w :
  config.TRANSLATION_MODELS !! (s +:+ "-" +:+ t) = Some name ->
  from_pretrained ext name = Done tt ->
  marian ext name text = Done tr ->
  truthy text = true ->
  truthy tr = true ->
  translate_text ext text s t w = (Returned tr, w).
Proof.
  intros Hlook Hload Hm Htext Htr.
  pose proof (model_target_not_disabled s t name Hlook) as Hon.
  unfold translation_disabled in Hon.
  unfold translate_text. rewrite Htext, Hon. simpl.
  unfold TranslatorService.translate_text,
    TranslatorService.load_model_and_tokenizer.
  rewrite Hlook, Hload. unfold bind, ret. rewrite Hm.
  destruct tr; [discriminate|reflexivity].
Qed.

Lemma translate_text_model_success_witness :
  translate_text services_up "I need help" "en" "es" fresh_world
  = (Returned "Necesito ayuda", fresh_world).
Proof.
  apply (translate_text_model_success services_up "I need help" "en" "es"
           "Helsinki-NLP/opus-mt-en-es" "Necesito ayuda");
    vm_compute; reflexivity.
Defined.

(** X5. When the pair has a model but loading it or running it throws,
    [translate_text] still returns the text it was given, and an error
    notification tells the user. *)
Theorem translate_text_model_failure ext (text s t name e : string) w :
  config.TRANSLATION_MODELS !! (s +:+ "-" +:+ t) = Some name ->
  truthy text = true ->
  from_pretrained ext name = Threw e \/
  (from_pretrained ext name = Done tt /\ marian ext name text = Threw e) ->
  exists evs msg,
    translate_text ext text s t w = (Returned text, log_events evs w) /\
    st_error msg ∈ evs.
Proof.
  intros Hlook Htext Hfail.
  pose proof (model_target_not_disabled s t name Hlook) as Hon.
  unfold translation_disabled in Hon.
  unfold translate_text. rewrite Htext, Hon. simpl.
  unfold TranslatorService.translate_text,
    TranslatorService.load_model_and_tokenizer.
  rewrite Hlook.
  destruct Hfail as [Hload | [Hload Hm]]; rewrite Hload.
  - eexists [_; _], _. unfold bind, emit, ret. rewrite log_events_app.
    split; [reflexivity|]. apply list_elem_of_here.
  - eexists [_], _. unfold bind, emit, ret. rewrite Hm.
    split; [reflexivity|]. apply list_elem_of_here.
Qed.

Lemma translate_text_model_failure_witness :
  exists evs msg,
    translate_text services_down "I need help" "en" "es" fresh_world
    = (Returned "I need help", log_events evs fresh_world) /\
    st_error msg ∈ evs.
Proof.
  apply (translate_text_model_failure services_down "I need help" "en" "es"
           "Helsinki-NLP/opus-mt-en-es" "connection refused").
  - vm_compute. reflexivity.
  - reflexivity.
  - left. reflexivity.
Defined.

(** ** The synthesizer, the transcriber and the decoder *)

Lemma generate_speech_unfolded ext (text voice : string) language w :
  truthy text = true ->
  generate_speech ext text voice language w
  = match gtts ext text (speech_language ext text language) with
    | Done b =>
        (Returned (Some b),
         log_events [gTTS text (speech_language ext text language)] w)
    | Threw e =>
        (Returned None,
         log_events [gTTS text (speech_language ext text language);
                     st_error ("Error in text-to-speech conversion: " +:+ e)]
                    w)
    end.
Proof.
  intros Htext.
  unfold generate_speech, TTSService.text_to_speech. rewrite Htext. simpl.
  fold (detected_language ext text).
  fold (speech_language ext text language).
  destruct (gtts ext text (speech_language ext text language)) as [b|e].
  - reflexivity.
  - unfold bind, emit, ret. now rewrite log_events_app.
Qed.

(** X6. With a non-empty language hint, a non-empty text is sent to gTTS
    once, in the hinted language, and langdetect has no say; an empty hint
    counts as no hint. *)
Theorem generate_speech_language_hint ext (text voice lang : string) w :
  truthy text = true ->
  truthy lang = true ->
  (exists au evs,
      generate_speech ext text voice (Some lang) w
      = (Returned au, log_events (gTTS text lang :: evs) w) /\
      Forall is_notice evs /\
      forall ext',
        gtts ext' = gtts ext ->
        generate_speech ext' text voice (Some lang) w
        = generate_speech ext text voice (Some lang) w) /\
  generate_speech ext text voice (Some "") w
  = generate_speech ext text voice None w.
Proof.
  intros Htext Hlang. split; [|reflexivity].
  assert (Hl : forall x, speech_language x text (Some lang) = lang)
    by (intros x; unfold speech_language; simpl; now rewrite Hlang).
  rewrite (generate_speech_unfolded ext text voice (Some lang) w Htext), Hl.
  destruct (gtts ext text lang) as [b|e] eqn:Hg.
  - exists (Some b), []. split; [reflexivity|]. split; [constructor|].
    intros ext' Hsame.
    rewrite (generate_speech_unfolded ext' text voice (Some lang) w Htext), Hl.
    now rewrite Hsame, Hg.
  - eexists None, [_]. split; [reflexivity|]. split; [repeat constructor|].
    intros ext' Hsame.
    rewrite (generate_speech_unfolded ext' text voice (Some lang) w Htext), Hl.
    now rewrite Hsame, Hg.
Qed.

Lemma generate_speech_language_hint_witness :
  (exists au evs,
      generate_speech services_up "Hola" "female" (Some "es") fresh_world
      = (Returned au, log_events (gTTS "Hola" "es" :: evs) fresh_world) /\
      Forall is_notice evs /\
      forall ext',
        gtts ext' = gtts services_up ->
        generate_speech ext' "Hola" "female" (Some "es") fresh_world
        = generate_speech services_up "Hola" "female" (Some "es") fresh_world) /\
  generate_speech services_up "Hola" "female" (Some "") fresh_world
  = generate_speech services_up "Hola" "female" None fresh_world.
Proof.
  apply (generate_speech_language_hint services_up "Hola" "female" "es");
    reflexivity.
Defined.

(** X7. [generate_speech] never raises.  For the empty text it asks
    nothing of gTTS and shows nothing; for a non-empty text it asks gTTS
    exactly once.  The audio is absent exactly when the text is empty or
    gTTS threw, and an error is shown exactly when gTTS threw. *)
Theorem generate_speech_absent_iff ext (text voice : string) language w :
  exists au evs,
    generate_speech ext text voice language w
    = (Returned au, log_events evs w) /\
    (au = None <->
     truthy text = false \/
     exists e, gtts ext text (speech_language ext text language) = Threw e) /\
    ((exists msg, st_error msg ∈ evs) <->
     truthy text = true /\
     exists e, gtts ext text (speech_language ext text language) = Threw e) /\
    ((truthy text = false /\ evs = []) \/
     (truthy text = true /\
      exists rest,
        evs = gTTS text (speech_language ext text language) :: rest /\
        Forall is_notice rest)).
Proof.
  destruct (truthy text) eqn:Htext.
  - rewrite (generate_speech_unfolded ext text voice language w Htext).
    destruct (gtts ext text (speech_language ext text language)) as [b|e].
    + exists (Some b), [gTTS text (speech_language ext text language)].
      split; [reflexivity|]. split; [|split].
      * split; [discriminate|]. intros [?|[e ?]]; discriminate.
      * split.
        -- intros [msg Hin]. apply list_elem_of_singleton in Hin. discriminate.
        -- intros [_ [e ?]]. discriminate.
      * right. split; [reflexivity|]. exists []. split; [reflexivity|constructor].
    + exists None,
        [gTTS text (speech_language ext text language);
         st_error ("Error in text-to-speech conversion: " +:+ e)].
      split; [reflexivity|]. split; [|split].
      * split; [|reflexivity]. intros _. right. now exists e.
      * split; [|].
        -- intros _. split; [reflexivity|]. now exists e.
        -- intros _. eexists. apply list_elem_of_further, list_elem_of_here.
      * right. split; [reflexivity|]. eexists [_].
        split; [reflexivity|repeat constructor].
  - exists None, []. destruct text; [|discriminate].
    split; [now rewrite log_events_nil|]. split; [|split].
    + split; [now left|reflexivity].
    + split.
      * intros [msg Hin]. now apply elem_of_nil in Hin.
      * intros [? _]. discriminate.
    + now left.
Qed.

Lemma transcribe_speech_cases ext (audio_bytes : bytes) :
  (transcribe_speech ext audio_bytes = None <-> audio_bytes = []) /\
  forall t,
    transcribe_speech ext audio_bytes = Some t ->
    t ∈ ASRService.mock_transcriptions /\ truthy t = true.
Proof.
  assert (Hall : Forall (fun t => truthy t = true) ASRService.mock_transcriptions)
    by (repeat constructor).
  destruct audio_bytes as [|b audio_bytes]; simpl.
  - split; [tauto|discriminate].
  - split; [split; discriminate|].
    intros t [= <-].
    assert (Hin : random_choice ext ASRService.mock_transcriptions
                  ∈ ASRService.mock_transcriptions).
    { apply list_elem_of_In, nth_In, Nat.mod_upper_bound. discriminate. }
    split; [exact Hin|].
    rewrite Forall_forall in Hall. now apply Hall.
Qed.

(** X8. [transcribe_speech] answers [None] exactly for an empty buffer;
    any other answer is one of the fifteen mock transcriptions, hence not
    empty. *)
Theorem transcribe_speech_result ext (audio_bytes : bytes) :
  (transcribe_speech ext audio_bytes = None <-> audio_bytes = []) /\
  forall t,
    transcribe_speech ext audio_bytes = Some t ->
    t ∈ ASRService.mock_transcriptions /\ truthy t = true.
Proof. apply transcribe_speech_cases. Qed.

(** X9. Given a non-empty audio buffer, the partner turn never carries the
    apology: its original text is one of the mock transcriptions. *)
Theorem incoming_with_audio_is_transcribed self u ext w :
  ConversationManager.user self = Some u ->
  mock_audio ext <> [] ->
  exists t tr au w',
    ConversationManager.simulate_incoming_message self ext w
    = (Returned (t, tr, au), w') /\
    transcribe_speech ext (mock_audio ext) = Some t /\
    t ∈ ASRService.mock_transcriptions.
Proof.
  intros Hu Haudio.
  destruct (simulate_incoming_message_runs self u ext w Hu)
    as (tr & au & path & evs & w' & Hrun & _).
  destruct (transcribe_speech_cases ext (mock_audio ext)) as [Hnone Hsome].
  destruct (transcribe_speech ext (mock_audio ext)) as [t|] eqn:Ht.
  - destruct (Hsome t eq_refl) as [Hin Htruthy].
    exists t, tr, au, w'. split; [|split; [reflexivity|exact Hin]].
    rewrite Hrun. unfold partner_text. rewrite Ht. simpl.
    now rewrite Htruthy.
  - destruct Haudio. now apply Hnone.
Qed.

Lemma incoming_with_audio_is_transcribed_witness :
  exists t tr au w',
    ConversationManager.simulate_incoming_message
      {| ConversationManager.user := Some ana |} services_up fresh_world
    = (Returned (t, tr, au), w') /\
    transcribe_speech services_up (mock_audio services_up) = Some t /\
    t ∈ ASRService.mock_transcriptions.
Proof.
  apply (incoming_with_audio_is_transcribed
           {| ConversationManager.user := Some ana |} ana services_up
           fresh_world).
  - reflexivity.
  - discriminate.
Defined.

(** X10. Whatever number the signal features add up to, negative ones
    included, [decode_signal] picks a phrase of its list: the index
    [feature % 20] is never out of range, and the phrase is not empty. *)
Theorem decode_signal_phrase_listed ext :
  fst (SignalDecoder.decode_signal ext) ∈ SignalDecoder.phrases /\
  truthy (fst (SignalDecoder.decode_signal ext)) = true /\
  forall ext',
    (feature ext' - feature ext) `mod` 20 = 0 ->
    fst (SignalDecoder.decode_signal ext')
    = fst (SignalDecoder.decode_signal ext).
Proof.
  assert (Hphrase : forall x,
    fst (SignalDecoder.decode_signal x)
    = nth (Z.to_nat (feature x `mod` 20)) SignalDecoder.phrases "")
    by reflexivity.
  split; [|split].
  - rewrite Hphrase. apply list_elem_of_In, nth_In.
    pose proof (Z.mod_pos_bound (feature ext) 20) as Hb.
    simpl length. lia.
  - apply (decoded_phrase_not_empty ext).
  - intros ext' Hmod. rewrite !Hphrase. f_equal. f_equal.
    replace (feature ext') with (feature ext + (feature ext' - feature ext)) by lia.
    rewrite Z.add_mod, Hmod, Z.add_0_r, Z.mod_mod by lia. reflexivity.
Qed.

(** ** The conversation page *)

(** X11. Without a logged-in user, both simulated calls raise
    [AttributeError] on their first look at [self.user], before anything
    is decoded into the session, spoken or logged. *)
Theorem perform_anonymous self (c : call) ext w :
  ConversationManager.user self = None ->
  exists msg, perform self c ext w = (Raised (AttributeError msg), w).
Proof.
  intros Hu. destruct c; simpl.
  - unfold ConversationManager.simulate_outgoing_message.
    destruct (get_mock_decoded_text ext) as [phrase conf].
    unfold ConversationManager.user_attr. rewrite Hu.
    eexists. reflexivity.
  - unfold ConversationManager.simulate_incoming_message.
    unfold ConversationManager.user_attr. rewrite Hu.
    eexists. reflexivity.
Qed.

Lemma perform_anonymous_witness :
  exists msg,
    perform {| ConversationManager.user := None |} outgoing services_up
      fresh_world
    = (Raised (AttributeError msg), fresh_world).
Proof.
  apply (perform_anonymous {| ConversationManager.user := None |} outgoing
           services_up fresh_world).
  reflexivity.
Defined.

(** X12. [save_conversation_log] never raises and never touches the
    session.  It returns [True] exactly when a user is logged in and the
    database takes the row; then the table gains exactly that one row, for
    that user, with an audio path exactly when there is audio; otherwise the
    table is as before, and without a user nothing at all happens. *)
Theorem save_conversation_log_result self ext (dir o t : string)
    (au : option bytes) w :
  exists ok w',
    ConversationManager.save_conversation_log self ext dir o t au w
    = (Returned ok, w') /\
    st_session_state w' = st_session_state w /\
    (ok = true <->
     is_Some (ConversationManager.user self) /\ commit ext = Committed) /\
    (ok = true ->
     exists row,
       db_rows w' = (db_rows w ++ [row])%list /\
       Some (user_id row) = id <$> ConversationManager.user self /\
       direction row = dir /\ original_text row = o /\
       translated_text row = t /\
       (audio_file_path row = None <-> truthy_bytes au = false)) /\
    (ok = false -> db_rows w' = db_rows w) /\
    (ConversationManager.user self = None -> w' = w).
Proof.
  unfold ConversationManager.save_conversation_log.
  destruct (ConversationManager.user self) as [u|] eqn:Hu.
  - unfold bind, get_session. destruct (commit ext) as [|e].
    + eexists true, _. split; [reflexivity|]. cbn.
      split; [reflexivity|]. split; [|split; [|split]].
      * split; [|reflexivity]. intros _. split; [now exists u|reflexivity].
      * intros _. eexists. split; [reflexivity|]. cbn.
        repeat split; try reflexivity.
        -- destruct (truthy_bytes au); [discriminate|reflexivity].
        -- intros ->. reflexivity.
      * discriminate.
      * discriminate.
    + eexists false, _. split; [reflexivity|]. cbn.
      split; [reflexivity|]. split; [|split; [|split]].
      * split; [discriminate|]. intros [_ ?]. discriminate.
      * discriminate.
      * reflexivity.
      * discriminate.
  - exists false, w. split; [reflexivity|].
    split; [reflexivity|]. split; [|split; [|split]].
    + split; [discriminate|]. intros [[? ?] _]. discriminate.
    + discriminate.
    + reflexivity.
    + reflexivity.
Qed.

Lemma conversation_unchanged_refl w : conversation_unchanged w w.
Proof. repeat split. Qed.

Lemma conversation_unchanged_log evs w :
  conversation_unchanged w (log_events evs w).
Proof. repeat split. Qed.

Lemma conversation_unchanged_trans w1 w2 w3 :
  conversation_unchanged w1 w2 -> conversation_unchanged w2 w3 ->
  conversation_unchanged w1 w3.
Proof.
  intros (H1 & H2 & H3) (H4 & H5 & H6).
  repeat split; congruence.
Qed.

Lemma turn_added_after u ext w wX w' e :
  conversation_unchanged w wX -> turn_added u ext wX w' e ->
  turn_added u ext w w' e.
Proof.
  intros (Hh & Hc & Hd) (Hh' & Hc' & Ht & Hshape & row & Hrows & Hrow).
  unfold turn_added, next_timestamp in *.
  rewrite Hh in Hh'. rewrite Hc in Hc', Ht. rewrite Hd in Hrows.
  repeat split; try assumption. now exists row.
Qed.

Lemma turn_added_log u ext w w' e evs :
  turn_added u ext w w' e -> turn_added u ext w (log_events evs w') e.
Proof. intros H. exact H. Qed.

(** A session that gained a turn through [with_turn]. *)
Lemma with_turn_added u ext w w' e row :
  st_session_state w' = with_turn e (st_session_state w) ->
  db_rows w' = (db_rows w ++ rows_saved ext row)%list ->
  timestamp e = next_timestamp (st_session_state w) ->
  entry_shape_ok e ->
  user_id row = id u ->
  direction row = direction_of e ->
  translated_text row = translated e ->
  turn_added u ext w w' e /\
  active_decoding (st_session_state w') = active_decoding (st_session_state w).
Proof.
  intros Hs Hd Ht Hshape Hid Hdir Htr. split; [|now rewrite Hs].
  unfold turn_added. rewrite Hs. simpl.
  repeat split; try assumption. now exists row.
Qed.

Lemma outgoing_adds_turn self u ext w :
  ConversationManager.user self = Some u ->
  exists e w',
    ConversationManager.simulate_outgoing_message self ext w
    = (Returned (summary e), w') /\
    sender e = "You" /\
    turn_added u ext w w' e /\
    active_decoding (st_session_state w') = active_decoding (st_session_state w).
Proof.
  intros Hu.
  destruct (simulate_outgoing_message_runs self u ext w Hu)
    as (tr & au & path & evs & w' & Hrun & _ & _ & Hs & Hd & _).
  exists {| sender := "You"; original := fst (get_mock_decoded_text ext);
            translated := tr;
            confidence := Some (snd (get_mock_decoded_text ext));
            audio := au;
            timestamp := next_timestamp (st_session_state w) |}, w'.
  split; [exact Hrun|]. split; [reflexivity|].
  apply (with_turn_added u ext w w' _ _ Hs Hd); try reflexivity.
  left. split; [reflexivity|]. now eexists.
Qed.

Lemma incoming_adds_turn self u ext w :
  ConversationManager.user self = Some u ->
  exists e w',
    ConversationManager.simulate_incoming_message self ext w
    = (Returned (summary e), w') /\
    sender e = "Partner" /\
    turn_added u ext w w' e /\
    active_decoding (st_session_state w') = active_decoding (st_session_state w).
Proof.
  intros Hu.
  destruct (simulate_incoming_message_runs self u ext w Hu)
    as (tr & au & path & evs & w' & Hrun & _ & _ & Hs & Hd & _).
  exists {| sender := "Partner"; original := partner_text ext;
            translated := tr; confidence := None; audio := au;
            timestamp := next_timestamp (st_session_state w) |}, w'.
  split; [exact Hrun|]. split; [reflexivity|].
  apply (with_turn_added u ext w w' _ _ Hs Hd); try reflexivity.
  right. split; reflexivity.
Qed.

(** The block of the button "Simulate Your Message". *)
Lemma your_message_block self u ext (pressed : bool) w :
  ConversationManager.user self = Some u ->
  let block : prog unit :=
    if pressed then
      s <- get_session ;;
      if active_decoding s then
        ConversationManager.simulate_outgoing_message self ext ;;;
        emit (st_success "Message sent successfully!") ;;;
        raise RerunException
      else
        emit (st_warning
                "Active decoding is disabled. Enable it to send messages.")
    else ret tt in
  (pressed && active_decoding (st_session_state w) = false /\
   exists evs, block w = (Returned tt, log_events evs w) /\
     (pressed = true ->
      evs = [st_warning
               "Active decoding is disabled. Enable it to send messages."])) \/
  (pressed && active_decoding (st_session_state w) = true /\
   exists e w',
     block w = (Raised RerunException, w') /\ sender e = "You" /\
     turn_added u ext w w' e /\
     active_decoding (st_session_state w') = active_decoding (st_session_state w)).
Proof.
  intros Hu block. subst block. destruct pressed; simpl andb.
  - destruct (active_decoding (st_session_state w)) eqn:Hactive.
    + right. split; [reflexivity|].
      destruct (outgoing_adds_turn self u ext w Hu)
        as (e & w' & Hrun & Hsender & Hturn & Hact).
      exists e, (log_events [st_success "Message sent successfully!"] w').
      split; [|split; [exact Hsender|split; [exact Hturn|]]].
      * unfold bind at 1. unfold get_session at 1. cbv beta iota.
        rewrite Hactive.
        now rewrite (bind_returned _ _ _ _ _ Hrun).
      * simpl. congruence.
    + left. split; [reflexivity|]. eexists. split; [|reflexivity].
      unfold bind at 1. unfold get_session at 1. cbv beta iota.
      rewrite Hactive. reflexivity.
  - left. split; [reflexivity|]. exists []. unfold ret.
    rewrite log_events_nil. split; [reflexivity|discriminate].
Qed.

(** The block of the button "Simulate Partner Message". *)
Lemma partner_message_block self u ext (pressed : bool) w :
  ConversationManager.user self = Some u ->
  let block : prog unit :=
    if pressed then
      ConversationManager.simulate_incoming_message self ext ;;;
      emit (st_success "Partner message received!") ;;;
      raise RerunException
    else ret tt in
  (pressed = false /\ block w = (Returned tt, w)) \/
  (pressed = true /\
   exists e w',
     block w = (Raised RerunException, w') /\ sender e = "Partner" /\
     turn_added u ext w w' e /\
     active_decoding (st_session_state w') = active_decoding (st_session_state w)).
Proof.
  intros Hu block. subst block. destruct pressed.
  - right. split; [reflexivity|].
    destruct (incoming_adds_turn self u ext w Hu)
      as (e & w' & Hrun & Hsender & Hturn & Hact).
    exists e, (log_events [st_success "Partner message received!"] w').
    split; [|split; [exact Hsender|split; [exact Hturn|exact Hact]]].
    now rewrite (bind_returned _ _ _ _ _ Hrun).
  - left. split; reflexivity.
Qed.

(** From the manual input box to the end of the page. *)
Lemma manual_message_block self u ext (manual_text : string) (pressed : bool) w :
  ConversationManager.user self = Some u ->
  let block : prog unit :=
    native <- ConversationManager.user_attr self "native_language"
                native_language ;;
    native_translated_text <- translate_text ext manual_text "en" native ;;
    if pressed && truthy manual_text then
      ConversationManager.send_manual_message self ext manual_text
        native_translated_text
    else ret tt in
  (pressed && truthy manual_text = false /\
   exists evs, block w = (Returned tt, log_events evs w)) \/
  (pressed && truthy manual_text = true /\
   exists e w',
     block w = (Raised RerunException, w') /\ sender e = "You" /\
     turn_added u ext w w' e /\
     active_decoding (st_session_state w') = active_decoding (st_session_state w)).
Proof.
  intros Hu block. subst block.
  destruct (pressed && truthy manual_text) eqn:Hsend.
  - right. split; [reflexivity|].
    apply andb_true_iff in Hsend as [-> Hmanual].
    destruct (manual_input_runs self u ext manual_text w Hu Hmanual)
      as (nt & tr & au & path & w' & Hrun & _ & _ & Hs & Hd).
    exists {| sender := "You"; original := nt; translated := tr;
              confidence := Some (QArith_base.Qmake 1 1); audio := au;
              timestamp := next_timestamp (st_session_state w) |}, w'.
    rewrite Hmanual in Hrun.
    split; [exact Hrun|]. split; [reflexivity|].
    apply (with_turn_added u ext w w' _ _ Hs Hd); try reflexivity.
    left. split; [reflexivity|]. now eexists.
  - left. split; [reflexivity|].
    destruct (translate_text_runs ext manual_text "en" (native_language u))
      as (nt & evs & _ & _ & Hrun).
    exists evs.
    unfold ConversationManager.user_attr. rewrite Hu.
    unfold bind at 1. unfold ret at 1.
    now rewrite (bind_returned _ _ _ _ _ (Hrun w)).
Qed.

(** The page once the toggle is stored. *)
Lemma conversation_interface_start self u ext ui w :
  ConversationManager.user self = Some u ->
  ConversationManager.conversation_interface self ext ui w
  = ((if button_simulate_your_message ui then
        s <- get_session ;;
        if active_decoding s then
          ConversationManager.simulate_outgoing_message self ext ;;;
          emit (st_success "Message sent successfully!") ;;;
          raise RerunException
        else
          emit (st_warning
                  "Active decoding is disabled. Enable it to send messages.")
      else ret tt) ;;;
     (if button_simulate_partner_message ui then
        ConversationManager.simulate_incoming_message self ext ;;;
        emit (st_success "Partner message received!") ;;;
        raise RerunException
      else ret tt) ;;;
     native <- ConversationManager.user_attr self "native_language"
                 native_language ;;
     native_translated_text <-
       translate_text ext (text_input_manual ui) "en" native ;;
     if button_send_manual_message ui && truthy (text_input_manual ui) then
       ConversationManager.send_manual_message self ext (text_input_manual ui)
         native_translated_text
     else ret tt)
      {| st_session_state :=
           {| conversation_history := conversation_history (st_session_state w);
              message_counter := message_counter (st_session_state w);
              active_decoding := toggle_active_decoding ui |};
         db_rows := db_rows w;
         events := events w |}.
Proof.
  intros Hu. unfold ConversationManager.conversation_interface.
  rewrite Hu. reflexivity.
Qed.

Lemma conversation_interface_cases self u ext ui w :
  ConversationManager.user self = Some u ->
  exists w',
    active_decoding (st_session_state w') = toggle_active_decoding ui /\
    if message_requested ui then
      exists e,
        ConversationManager.conversation_interface self ext ui w
        = (Raised RerunException, w') /\
        turn_added u ext w w' e
    else
      ConversationManager.conversation_interface self ext ui w
      = (Returned tt, w') /\
      conversation_unchanged w w'.
Proof.
  intros Hu.
  rewrite (conversation_interface_start self u ext ui w Hu).
  set (w0 := {| st_session_state := _; db_rows := db_rows w;
                events := events w |}).
  assert (H0 : conversation_unchanged w w0) by (repeat split).
  assert (Hact0 : active_decoding (st_session_state w0)
                  = toggle_active_decoding ui) by reflexivity.
  pose proof (your_message_block self u ext
                (button_simulate_your_message ui) w0 Hu) as H1.
  cbv zeta in H1. rewrite Hact0 in H1.
  destruct H1 as [(Hc1 & evs1 & Hb1 & _)
                 | (Hc1 & e & w' & Hb1 & _ & Hturn & Hact)].
  - rewrite (bind_returned _ _ _ _ _ Hb1).
    pose proof (partner_message_block self u ext
                  (button_simulate_partner_message ui)
                  (log_events evs1 w0) Hu) as H2.
    cbv zeta in H2.
    destruct H2 as [(Hc2 & Hb2) | (Hc2 & e & w' & Hb2 & _ & Hturn & Hact)].
    + rewrite (bind_returned _ _ _ _ _ Hb2).
      pose proof (manual_message_block self u ext (text_input_manual ui)
                    (button_send_manual_message ui)
                    (log_events evs1 w0) Hu) as H3.
      cbv zeta in H3.
      destruct H3 as [(Hc3 & evs3 & Hb3)
                     | (Hc3 & e & w' & Hb3 & _ & Hturn & Hact)].
      * assert (Hreq : message_requested ui = false)
          by (unfold message_requested; now rewrite Hc1, Hc2, Hc3).
        rewrite Hreq.
        exists (log_events evs3 (log_events evs1 w0)).
        split; [reflexivity|]. split; [exact Hb3|exact H0].
      * assert (Hreq : message_requested ui = true)
          by (unfold message_requested; now rewrite Hc1, Hc2, Hc3).
        rewrite Hreq. exists w'.
        split; [now rewrite Hact|]. exists e. split; [exact Hb3|].
        apply (turn_added_after u ext w (log_events evs1 w0) w' e H0 Hturn).
    + assert (Hreq : message_requested ui = true)
        by (unfold message_requested; now rewrite Hc1, Hc2).
      rewrite Hreq. exists w'.
      split; [now rewrite Hact|]. exists e.
      split; [now rewrite (bind_raised _ _ _ _ _ Hb2)|].
      apply (turn_added_after u ext w (log_events evs1 w0) w' e H0 Hturn).
  - assert (Hreq : message_requested ui = true)
      by (unfold message_requested; now rewrite Hc1).
    rewrite Hreq. exists w'.
    split; [now rewrite Hact|]. exists e.
    split; [now rewrite (bind_raised _ _ _ _ _ Hb1)|].
    apply (turn_added_after u ext w w0 w' e H0 Hturn).
Qed.

(** X13. One run of the conversation page for a logged-in user never
    fails.  It stores the privacy toggle.  If the widgets ask for a message
    it adds exactly one turn, numbered with the counter, logs at most one
    row for it, and ends in the rerun; otherwise it returns with history,
    counter and log as they were. *)
Theorem conversation_interface_outcome self u ext ui w :
  ConversationManager.user self = Some u ->
  exists w',
    active_decoding (st_session_state w') = toggle_active_decoding ui /\
    if message_requested ui then
      exists e,
        ConversationManager.conversation_interface self ext ui w
        = (Raised RerunException, w') /\
        turn_added u ext w w' e
    else
      ConversationManager.conversation_interface self ext ui w
      = (Returned tt, w') /\
      conversation_unchanged w w'.
Proof. apply conversation_interface_cases. Qed.

Lemma conversation_interface_outcome_witness :
  exists w',
    active_decoding (st_session_state w') = toggle_active_decoding typed_help /\
    if message_requested typed_help then
      exists e,
        ConversationManager.conversation_interface
          {| ConversationManager.user := Some luis |} services_down typed_help
          fresh_world
        = (Raised RerunException, w') /\
        turn_added luis services_down fresh_world w' e
    else
      ConversationManager.conversation_interface
        {| ConversationManager.user := Some luis |} services_down typed_help
        fresh_world
      = (Returned tt, w') /\
      conversation_unchanged fresh_world w'.
Proof.
  apply (conversation_interface_outcome
           {| ConversationManager.user := Some luis |} luis services_down
           typed_help fresh_world).
  reflexivity.
Defined.

(** X14. With active decoding switched off, the button "Simulate Your
    Message" produces no turn: the run (no other message being asked for)
    shows the warning and returns with history, counter and log
    untouched. *)
Theorem decoding_off_blocks_signal_message self u ext ui w :
  ConversationManager.user self = Some u ->
  toggle_active_decoding ui = false ->
  button_simulate_your_message ui = true ->
  button_simulate_partner_message ui = false ->
  button_send_manual_message ui && truthy (text_input_manual ui) = false ->
  exists w',
    ConversationManager.conversation_interface self ext ui w
    = (Returned tt, w') /\
    conversation_unchanged w w' /\
    active_decoding (st_session_state w') = false /\
    st_warning "Active decoding is disabled. Enable it to send messages."
      ∈ events w'.
Proof.
  intros Hu Htoggle Hb1 Hb2 Hb3.
  rewrite (conversation_interface_start self u ext ui w Hu).
  set (w0 := {| st_session_state := _; db_rows := db_rows w;
                events := events w |}).
  pose proof (your_message_block self u ext
                (button_simulate_your_message ui) w0 Hu) as H1.
  cbv zeta in H1.
  destruct H1 as [(_ & evs1 & Hrun1 & Hevs1) | (Hc1 & _)];
    [|subst w0; simpl in Hc1; rewrite Htoggle, Hb1 in Hc1; discriminate].
  rewrite (bind_returned _ _ _ _ _ Hrun1).
  rewrite (Hevs1 Hb1).
  pose proof (partner_message_block self u ext
                (button_simulate_partner_message ui)
                (log_events
                   [st_warning
                      "Active decoding is disabled. Enable it to send messages."]
                   w0) Hu) as H2.
  cbv zeta in H2.
  destruct H2 as [(_ & Hrun2) | (Hc2 & _)]; [|congruence].
  rewrite (bind_returned _ _ _ _ _ Hrun2).
  pose proof (manual_message_block self u ext (text_input_manual ui)
                (button_send_manual_message ui)
                (log_events
                   [st_warning
                      "Active decoding is disabled. Enable it to send messages."]
                   w0) Hu) as H3.
  cbv zeta in H3.
  destruct H3 as [(_ & evs3 & Hrun3) | (Hc3 & _)]; [|congruence].
  eexists. split; [exact Hrun3|].
  split; [repeat split|]. split; [exact Htoggle|].
  simpl. rewrite elem_of_app, elem_of_app. left. right. apply list_elem_of_here.
Qed.

Lemma decoding_off_blocks_signal_message_witness :
  exists w',
    ConversationManager.conversation_interface
      {| ConversationManager.user := Some ana |} services_up
      {| toggle_active_decoding := false;
         button_simulate_your_message := true;
         button_simulate_partner_message := false;
         text_input_manual := "";
         button_send_manual_message := false |} fresh_world
    = (Returned tt, w') /\
    conversation_unchanged fresh_world w' /\
    active_decoding (st_session_state w') = false /\
    st_warning "Active decoding is disabled. Enable it to send messages."
      ∈ events w'.
Proof.
  apply (decoding_off_blocks_signal_message
           {| ConversationManager.user := Some ana |} ana services_up);
    reflexivity.
Defined.

(** ** Sessions of page runs *)

Lemma numbered_unchanged rows0 w w' :
  conversation_numbered rows0 w -> conversation_unchanged w w' ->
  conversation_numbered rows0 w'.
Proof.
  intros (Hts & Hnext & Hshape & Hlog) (Hh & Hc & Hd).
  unfold conversation_numbered, next_timestamp in *.
  now rewrite Hh, Hc, Hd.
Qed.

Lemma rows_saved_length ext row : (length (rows_saved ext row) <= 1)%nat.
Proof. unfold rows_saved. destruct (commit ext); simpl; lia. Qed.

Lemma numbered_turn_added rows0 u ext w w' e :
  conversation_numbered rows0 w -> turn_added u ext w w' e ->
  conversation_numbered rows0 w'.
Proof.
  intros (Hts & Hnext & Hshape & rows & Hlog & Hlen)
         (Hh & Hc & Ht & He & row & Hrows & _).
  unfold conversation_numbered, next_timestamp in *.
  rewrite Hh, Hc, Hrows. rewrite !length_app. simpl length.
  split; [|split; [|split]].
  - rewrite fmap_app, Hts. simpl fmap.
    replace (length (conversation_history (st_session_state w)) + 1)%nat
      with (S (length (conversation_history (st_session_state w)))) by lia.
    rewrite seqZ_S. f_equal. rewrite Ht, Hnext. now rewrite Z.add_0_l.
  - simpl. lia.
  - apply Forall_app. split; [exact Hshape|]. now constructor.
  - exists (rows ++ rows_saved ext row)%list.
    rewrite Hlog, <- app_assoc. split; [reflexivity|].
    rewrite length_app. pose proof (rows_saved_length ext row). lia.
Qed.

Lemma conversation_mode_cases (current_user : option User) ext ui w :
  conversation_unchanged w (snd (conversation_mode current_user ext ui w)) \/
  exists u e,
    current_user = Some u /\
    turn_added u ext w (snd (conversation_mode current_user ext ui w)) e.
Proof.
  destruct current_user as [u|]; simpl.
  - destruct (conversation_interface_cases
                {| ConversationManager.user := Some u |} u ext ui w eq_refl)
      as (w' & _ & Hcase).
    destruct (message_requested ui).
    + destruct Hcase as (e & Hrun & Hturn). right. exists u, e.
      rewrite Hrun. now split.
    + destruct Hcase as (Hrun & Hsame). left. now rewrite Hrun.
  - left. repeat split.
Qed.

Lemma page_runs_keep_numbered rows0 current_user script w :
  conversation_numbered rows0 w ->
  conversation_numbered rows0 (page_runs current_user script w).
Proof.
  revert w. induction script as [|[ext ui] script IH]; intros w Hw; [exact Hw|].
  simpl. apply IH.
  destruct (conversation_mode_cases current_user ext ui w)
    as [Hsame | (u & e & _ & Hturn)].
  - now apply (numbered_unchanged rows0 w).
  - now apply (numbered_turn_added rows0 u ext w _ e).
Qed.

(** A fresh session on any table, with anything already on the screen. *)
Lemma fresh_session_numbered rows0 evs0 :
  conversation_numbered rows0
    {| st_session_state := fresh_session; db_rows := rows0; events := evs0 |}.
Proof.
  unfold conversation_numbered. simpl.
  repeat split; [constructor|]. exists []. now rewrite app_nil_r.
Qed.

(** X15. In a session that starts fresh, whatever the log table already
    holds, after any number of runs of the conversation page (any widgets,
    any behaviour of the services and the database, logged in or not), the
    i-th turn of the history carries timestamp i, the counter stands at the
    number of turns, the timestamps are strictly increasing, and the log is
    the table the session started with followed by at most one row per
    turn. *)
Theorem page_runs_number_turns (current_user : option User)
    (script : list (externals * widgets))
    (rows0 : list ConversationLog) (evs0 : list event) :
  let w0 := {| st_session_state := fresh_session;
               db_rows := rows0; events := evs0 |} in
  let w' := page_runs current_user script w0 in
  let history := conversation_history (st_session_state w') in
  (forall i e, history !! i = Some e -> timestamp e = Z.of_nat i) /\
  next_timestamp (st_session_state w') = Z.of_nat (length history) /\
  StronglySorted Z.lt (timestamp <$> history) /\
  exists rows,
    db_rows w' = (rows0 ++ rows)%list /\
    (length rows <= length history)%nat.
Proof.
  intros w0 w' history.
  destruct (page_runs_keep_numbered rows0 current_user script w0
              (fresh_session_numbered rows0 evs0))
    as (Hts & Hnext & _ & Hlog).
  fold w' in Hts, Hnext, Hlog. fold history in Hts, Hnext, Hlog.
  split; [|split; [exact Hnext|split; [|exact Hlog]]].
  - intros i e Hi.
    assert (Hl : (timestamp <$> history) !! i = Some (timestamp e))
      by (now rewrite list_lookup_fmap, Hi).
    rewrite Hts in Hl. apply lookup_seqZ in Hl. lia.
  - rewrite Hts. apply seqZ_increasing.
Qed.

Lemma display_shaped_history (h : list message_entry) :
  Forall entry_shape_ok h ->
  exists col1,
    your_messages h = Some col1 /\
    (length col1 + length (partner_messages h))%nat = length h /\
    decoded_text <$> col1
    = original <$> filter (fun e => sender e = "You") h /\
    original_speech <$> partner_messages h
    = original <$> filter (fun e => sender e = "Partner") h.
Proof.
  induction 1 as [|e h He _ IH]; [now exists []|].
  destruct IH as (col1 & Hcol1 & Hlen & Hyou & Hpartner).
  destruct He as [(Hs & c & Hc) | (Hs & Hc)].
  - exists ({| decoded_text := original e;
               your_translated_text := translated e;
               your_confidence := c;
               your_audio := audio_player (audio e) |} :: col1).
    rewrite filter_cons_True by exact Hs.
    rewrite filter_cons_False by (rewrite Hs; discriminate).
    rewrite !fmap_cons, Hyou, <- Hpartner.
    cbn [your_messages partner_messages]. rewrite Hs, Hc, Hcol1.
    cbn [String.eqb Ascii.eqb Bool.eqb decoded_text length].
    repeat split. lia.
  - exists col1.
    rewrite filter_cons_False by (rewrite Hs; discriminate).
    rewrite filter_cons_True by exact Hs.
    rewrite !fmap_cons, Hyou, <- Hpartner.
    cbn [your_messages partner_messages]. rewrite Hs.
    cbn [String.eqb Ascii.eqb Bool.eqb original_speech length fmap list_fmap].
    repeat split; [exact Hcol1|lia].
Qed.

(** X16. In a session that starts fresh, after any runs of the
    conversation page, [display_conversation_history] finds the confidence
    of every message of the user (no [KeyError]); the left column shows
    exactly the user's messages and the right one exactly the partner's, in
    order, so every turn is shown once. *)
Theorem display_after_page_runs (current_user : option User)
    (script : list (externals * widgets)) :
  let s := st_session_state (page_runs current_user script fresh_world) in
  exists col1 col2,
    display_conversation_history s = Some (col1, col2) /\
    (length col1 + length col2)%nat = length (conversation_history s) /\
    decoded_text <$> col1
    = original <$> filter (fun e => sender e = "You") (conversation_history s) /\
    original_speech <$> col2
    = original <$>
        filter (fun e => sender e = "Partner") (conversation_history s).
Proof.
  intros s.
  destruct (page_runs_keep_numbered [] current_user script fresh_world
              (fresh_session_numbered [] [])) as (_ & _ & Hshape & _).
  fold s in Hshape.
  destruct (display_shaped_history _ Hshape)
    as (col1 & Hcol1 & Hlen & Hyou & Hpartner).
  exists col1, (partner_messages (conversation_history s)).
  unfold display_conversation_history. rewrite Hcol1. now repeat split.
Qed.

(** X18. A session only ever appends to the log: after any runs of the
    conversation page the rows that were there are still there, in place;
    at most one row per run has been added; and every added row carries the
    id of the session's user (without a user nothing is added). *)
Theorem page_runs_log_append_only (current_user : option User)
    (script : list (externals * widgets)) w :
  exists rows,
    db_rows (page_runs current_user script w) = (db_rows w ++ rows)%list /\
    (length rows <= length script)%nat /\
    forall row, row ∈ rows -> Some (user_id row) = id <$> current_user.
Proof.
  revert w. induction script as [|[ext ui] script IH]; intros w.
  - exists []. simpl. rewrite app_nil_r. repeat split; [lia|].
    intros row Hin. now apply elem_of_nil in Hin.
  - simpl page_runs.
    destruct (IH (snd (conversation_mode current_user ext ui w)))
      as (rows & Hrows & Hlen & Hid).
    destruct (conversation_mode_cases current_user ext ui w)
      as [(_ & _ & Hd) | (u & e & -> & _ & _ & _ & _ & row & Hd & Hrow & _)].
    + exists rows. rewrite Hrows, Hd. repeat split; [simpl; lia|exact Hid].
    + exists (rows_saved ext row ++ rows)%list.
      rewrite Hrows, Hd, <- app_assoc. split; [reflexivity|]. split.
      * rewrite length_app. pose proof (rows_saved_length ext row).
        simpl length. lia.
      * intros r Hin. apply elem_of_app in Hin as [Hin|Hin]; [|now apply Hid].
        unfold rows_saved in Hin. destruct (commit ext).
        -- apply list_elem_of_singleton in Hin. subst r. simpl. now rewrite Hrow.
        -- now apply elem_of_nil in Hin.
Qed.

(** A simulated call and the row it hands to the database. *)
Lemma perform_logs self u c ext w :
  ConversationManager.user self = Some u ->
  exists e row w',
    perform self c ext w = (Returned (summary e), w') /\
    st_session_state w' = with_turn e (st_session_state w) /\
    db_rows w' = (db_rows w ++ rows_saved ext row)%list /\
    user_id row = id u /\
    direction row = direction_of e /\
    original_text row = original e /\
    translated_text row = translated e.
Proof.
  intros Hu. destruct c; simpl.
  - destruct (simulate_outgoing_message_runs self u ext w Hu)
      as (tr & au & path & evs & w' & Hrun & _ & _ & Hs & Hd & _).
    exists {| sender := "You"; original := fst (get_mock_decoded_text ext);
              translated := tr;
              confidence := Some (snd (get_mock_decoded_text ext));
              audio := au;
              timestamp := next_timestamp (st_session_state w) |}.
    eexists _, w'. split; [exact Hrun|]. split; [exact Hs|].
    split; [exact Hd|]. repeat split.
  - destruct (simulate_incoming_message_runs self u ext w Hu)
      as (tr & au & path & evs & w' & Hrun & _ & _ & Hs & Hd & _).
    exists {| sender := "Partner"; original := partner_text ext;
              translated := tr; confidence := None; audio := au;
              timestamp := next_timestamp (st_session_state w) |}.
    eexists _, w'. split; [exact Hrun|]. split; [exact Hs|].
    split; [exact Hd|]. repeat split.
Qed.

(** X17. When the database takes every row, the log mirrors the
    conversation: a sequence of simulated calls adds one row per turn, in
    the same order, each with the user's id, the direction of the turn
    (outgoing for "You", incoming for "Partner") and the turn's original and
    translated texts. *)
Theorem log_mirrors_conversation self u (script : list (call * externals)) w :
  ConversationManager.user self = Some u ->
  Forall (fun c => commit (snd c) = Committed) script ->
  exists new rows w',
    perform_all self script w = (Returned (summary <$> new), w') /\
    conversation_history (st_session_state w')
    = (conversation_history (st_session_state w) ++ new)%list /\
    db_rows w' = (db_rows w ++ rows)%list /\
    Forall2 (fun e row =>
               user_id row = id u /\
               direction row = direction_of e /\
               original_text row = original e /\
               translated_text row = translated e) new rows.
Proof.
  intros Hu Hall. revert w.
  induction Hall as [|[c ext] script Hc _ IH]; intros w.
  - exists [], [], w. split; [reflexivity|].
    split; [now rewrite app_nil_r|]. split; [now rewrite app_nil_r|constructor].
  - destruct (perform_logs self u c ext w Hu)
      as (e & row & w1 & Hrun & Hs & Hd & Hrow).
    destruct (IH w1) as (new & rows & w' & Hrest & Hhist & Hrows & Hmirror).
    exists (e :: new), (row :: rows), w'.
    split; [|split; [|split]].
    + simpl perform_all.
      rewrite (bind_returned _ _ _ _ _ Hrun).
      now rewrite (bind_returned _ _ _ _ _ Hrest).
    + rewrite Hhist, Hs. simpl. now rewrite <- app_assoc.
    + rewrite Hrows, Hd. unfold rows_saved. simpl in Hc. rewrite Hc.
      now rewrite <- app_assoc.
    + constructor; [exact Hrow|exact Hmirror].
Qed.

Lemma log_mirrors_conversation_witness :
  exists new rows w',
    perform_all {| ConversationManager.user := Some ana |}
      [(outgoing, services_up); (incoming, services_up)] fresh_world
    = (Returned (summary <$> new), w') /\
    conversation_history (st_session_state w')
    = (conversation_history (st_session_state fresh_world) ++ new)%list /\
    db_rows w' = (db_rows fresh_world ++ rows)%list /\
    Forall2 (fun e row =>
               user_id row = id ana /\
               direction row = direction_of e /\
               original_text row = original e /\
               translated_text row = translated e) new rows.
Proof.
  apply (log_mirrors_conversation {| ConversationManager.user := Some ana |} ana
           [(outgoing, services_up); (incoming, services_up)] fresh_world).
  - reflexivity.
  - repeat constructor.
Defined.

(** ** The pages of app.py *)

(** X19. The thought-to-speech page and the conversation mode agree: for
    the same user and externals, the page shows the translated text and the
    audio that [simulate_outgoing_message] returns, and the phrase in the
    native language beside them; the download button comes exactly with the
    audio; and the page touches neither the session nor the log. *)
Theorem thought_to_speech_matches_conversation (u : User) ext
    (signal_type : signal_kind) w :
  exists out au w',
    app.thought_to_speech (Some u) ext signal_type true w
    = (Returned (Some out), w') /\
    st_session_state w' = st_session_state w /\
    db_rows w' = db_rows w /\
    fst (ConversationManager.simulate_outgoing_message
           {| ConversationManager.user := Some u |} ext w)
    = Returned (fst (get_mock_decoded_text ext),
                app.shown_translated_text out, au) /\
    app.shown_audio out = audio_player au /\
    (app.download_file_name out = None <-> truthy_bytes au = false) /\
    forall w0,
      fst (translate_text ext (fst (get_mock_decoded_text ext)) "en"
             (native_language u) w0)
      = Returned (app.decoded_in_native out).
Proof.
  destruct (simulate_outgoing_message_runs
              {| ConversationManager.user := Some u |} u ext w eq_refl)
    as (tr & au & path & evs0 & w0 & Hrun & Htr & Hau & _).
  destruct (translate_text_runs ext (fst (get_mock_decoded_text ext)) "en"
              (native_language u)) as (dn & ev1 & _ & _ & Hrun1).
  destruct (translate_text_runs ext (fst (get_mock_decoded_text ext))
              (native_language u) (target_language u))
    as (tr' & ev2 & Htruthy & _ & Hrun2).
  rewrite decoded_phrase_not_empty in Htruthy.
  destruct (generate_speech_runs ext tr' (voice_type u) Htruthy)
    as (au' & ev3 & _ & Hrun3).
  assert (tr' = tr) as ->
    by (specialize (Htr w); rewrite Hrun2 in Htr; simpl in Htr; congruence).
  assert (au' = au) as ->
    by (specialize (Hau w); rewrite Hrun3 in Hau; simpl in Hau; congruence).
  exists {| app.decoded_in_native := dn;
            app.shown_confidence := snd (get_mock_decoded_text ext);
            app.shown_translated_text := tr;
            app.shown_audio := audio_player au;
            app.download_file_name :=
              if truthy_bytes au
              then Some ("neurolink_speak_" +:+ app.lower signal_type
                         +:+ "_" +:+ target_language u +:+ ".wav")
              else None |}, au,
    (log_events (gTTS tr (detected_language ext tr) :: ev3)
       (log_events ev2 (log_events ev1 w))).
  split; [|split; [|split; [|split; [|split; [|split]]]]].
  - unfold app.thought_to_speech.
    destruct (get_mock_decoded_text ext) as [phrase conf]. simpl fst in *.
    simpl snd.
    rewrite (bind_returned _ _ _ _ _ (Hrun1 w)).
    rewrite (bind_returned _ _ _ _ _ (Hrun2 _)).
    rewrite (bind_returned _ _ _ _ _ (Hrun3 _)).
    reflexivity.
  - reflexivity.
  - reflexivity.
  - rewrite Hrun. reflexivity.
  - reflexivity.
  - simpl. destruct (truthy_bytes au); split; congruence.
  - intros w1. now rewrite Hrun1.
Qed.

(** The block of the incoming-speech page. *)
Lemma transcribe_translate_speak_runs ext (u : User) w :
  match transcribe_speech ext (mock_audio ext) with
  | None =>
      app.transcribe_translate_speak ext u w = (Returned (None, "", None), w)
  | Some t =>
      exists tr au evs,
        app.transcribe_translate_speak ext u w
        = (Returned (Some t, tr, au), log_events evs w) /\
        fst (ConversationManager.simulate_incoming_message
               {| ConversationManager.user := Some u |} ext w)
        = Returned (t, tr, au)
  end.
Proof.
  unfold app.transcribe_translate_speak.
  destruct (transcribe_speech_cases ext (mock_audio ext)) as [_ Hsome].
  destruct (transcribe_speech ext (mock_audio ext)) as [t|] eqn:Ht;
    [|reflexivity].
  destruct (Hsome t eq_refl) as [_ Htruthy].
  destruct (simulate_incoming_message_runs
              {| ConversationManager.user := Some u |} u ext w eq_refl)
    as (tr & au & path & evs0 & w0 & Hrun & Htr & Hau & _).
  assert (Htext : partner_text ext = t)
    by (unfold partner_text; rewrite Ht; simpl; now rewrite Htruthy).
  rewrite Htext in *.
  destruct (translate_text_runs ext t (target_language u) (native_language u))
    as (tr' & ev1 & Htruthy' & _ & Hrun1).
  rewrite Htruthy in Htruthy'.
  destruct (generate_speech_runs ext tr' (voice_type u) Htruthy')
    as (au' & ev2 & _ & Hrun2).
  assert (tr' = tr) as ->
    by (specialize (Htr w); rewrite Hrun1 in Htr; simpl in Htr; congruence).
  assert (au' = au) as ->
    by (specialize (Hau w); rewrite Hrun2 in Hau; simpl in Hau; congruence).
  eexists tr, au, _. split; [|now rewrite Hrun].
  rewrite (bind_returned _ _ _ _ _ (Hrun1 w)).
  rewrite (bind_returned _ _ _ _ _ (Hrun2 _)).
  unfold ret. now rewrite log_events_app.
Qed.

Lemma incoming_speech_requested (u : User) ext method uploaded_file
    (process_audio_pressed simulate_recording_pressed : bool) w :
  processing_requested method uploaded_file process_audio_pressed
    simulate_recording_pressed = true ->
  app.incoming_speech (Some u) ext method uploaded_file process_audio_pressed
    simulate_recording_pressed w
  = (shown <- app.transcribe_translate_speak ext u ;; ret (Some shown))
      (log_events [input_notice method] w).
Proof.
  unfold processing_requested, app.incoming_speech.
  destruct method; [destruct uploaded_file|]; intros Hreq;
    try discriminate; rewrite Hreq; reflexivity.
Qed.

(** X21. When the transcription succeeds, the incoming-speech page (either
    input method) shows the transcription, the translation and the audio
    that [simulate_incoming_message] returns for the same user and
    externals, and it touches neither the session nor the log. *)
Theorem incoming_speech_matches_conversation (u : User) ext method
    uploaded_file (process_audio_pressed simulate_recording_pressed : bool)
    (t : string) w :
  processing_requested method uploaded_file process_audio_pressed
    simulate_recording_pressed = true ->
  transcribe_speech ext (mock_audio ext) = Some t ->
  exists tr au w',
    app.incoming_speech (Some u) ext method uploaded_file
      process_audio_pressed simulate_recording_pressed w
    = (Returned (Some (Some t, tr, au)), w') /\
    st_session_state w' = st_session_state w /\
    db_rows w' = db_rows w /\
    fst (ConversationManager.simulate_incoming_message
           {| ConversationManager.user := Some u |} ext w)
    = Returned (t, tr, au).
Proof.
  intros Hreq Hsome.
  rewrite (incoming_speech_requested u ext _ _ _ _ w Hreq).
  pose proof (transcribe_translate_speak_runs ext u
                (log_events [input_notice method] w)) as Hrun.
  rewrite Hsome in Hrun. destruct Hrun as (tr & au & evs & Hrun & Hsame).
  exists tr, au, (log_events evs (log_events [input_notice method] w)).
  split; [now rewrite (bind_returned _ _ _ _ _ Hrun)|].
  repeat split.
  destruct (simulate_incoming_message_runs
              {| ConversationManager.user := Some u |} u ext w eq_refl)
    as (tr1 & au1 & p1 & e1 & w1 & Hrun1 & Htr1 & Hau1 & _).
  destruct (simulate_incoming_message_runs
              {| ConversationManager.user := Some u |} u ext
              (log_events [input_notice method] w) eq_refl)
    as (tr2 & au2 & p2 & e2 & w2 & Hrun2 & Htr2 & Hau2 & _).
  rewrite Hrun2 in Hsame. simpl in Hsame. injection Hsame as Ht <- <-.
  rewrite Hrun1. simpl. rewrite Ht.
  assert (tr1 = tr2) as ->
    by (specialize (Htr1 w); specialize (Htr2 w); congruence).
  assert (au1 = au2) as ->
    by (specialize (Hau1 w); specialize (Hau2 w); congruence).
  reflexivity.
Qed.

Lemma incoming_speech_matches_conversation_witness :
  exists tr au w',
    app.incoming_speech (Some ana) services_up UploadAudioFile
      (Some [Byte.x52; Byte.x49]) true false fresh_world
    = (Returned (Some (Some "Hello, how are you today?", tr, au)), w') /\
    st_session_state w' = st_session_state fresh_world /\
    db_rows w' = db_rows fresh_world /\
    fst (ConversationManager.simulate_incoming_message
           {| ConversationManager.user := Some ana |} services_up fresh_world)
    = Returned ("Hello, how are you today?", tr, au).
Proof.
  apply (incoming_speech_matches_conversation ana services_up UploadAudioFile
           (Some [Byte.x52; Byte.x49]) true false "Hello, how are you today?"
           fresh_world);
    reflexivity.
Defined.

(** ** Accounts *)

Lemma find_app_one {A} (p : A -> bool) (l : list A) (x : A) :
  find p (l ++ [x])
  = match find p l with
    | Some a => Some a
    | None => if p x then Some x else None
    end.
Proof.
  induction l as [|a l IH]; simpl; [reflexivity|].
  now destruct (p a).
Qed.

Lemma find_username_none (name : string) (users : list account) :
  find (has_username name) users = None <-> name ∉ usernames users.
Proof.
  unfold usernames. induction users as [|a users IH].
  - split; [intros _ Hin; now apply elem_of_nil in Hin|reflexivity].
  - rewrite fmap_cons, not_elem_of_cons, <- IH. cbn [find].
    unfold has_username at 1.
    destruct (String.eqb_spec (username (profile a)) name) as [Heq|Hne].
    + split; [discriminate|]. intros [Hne _]. now destruct Hne.
    + split; [intros H; split; [congruence|exact H] | now intros [_ H]].
Qed.

Lemma find_email_none (mail : string) (users : list account) :
  find (has_email mail) users = None <-> mail ∉ emails users.
Proof.
  unfold emails. induction users as [|a users IH].
  - split; [intros _ Hin; now apply elem_of_nil in Hin|reflexivity].
  - rewrite fmap_cons, not_elem_of_cons, <- IH. cbn [find].
    unfold has_email at 1.
    destruct (String.eqb_spec (email (profile a)) mail) as [Heq|Hne].
    + split; [discriminate|]. intros [Hne _]. now destruct Hne.
    + split; [intros H; split; [congruence|exact H] | now intros [_ H]].
Qed.

(** What [create_user] does, case by case. *)
Lemma create_user_cases ax (name mail password : string)
    (nl tl vt : option string) (users : list account) :
  (auth.create_user ax name mail password nl tl vt users = (None, users) /\
   refused ax name mail users) \/
  (db_answer ax = Done tt /\
   (name ∉ usernames users) /\ (mail ∉ emails users) /\
   auth.create_user ax name mail password nl tl vt users
   = (match refresh_answer ax with
      | Done _ => Some (profile (new_account ax name mail password nl tl vt))
      | Threw _ => None
      end,
      users ++ [new_account ax name mail password nl tl vt])%list).
Proof.
  unfold auth.create_user, refused.
  destruct (db_answer ax) as [[]|e]; [|left; split; [reflexivity|left; now exists e]].
  destruct (find (has_username name) users) as [a|] eqn:Hname.
  { left. split; [reflexivity|]. right. left.
    destruct (decide (name ∈ usernames users)) as [Hin|Hnin]; [exact Hin|].
    apply find_username_none in Hnin. congruence. }
  destruct (find (has_email mail) users) as [a|] eqn:Hmail.
  { left. split; [reflexivity|]. right. right.
    destruct (decide (mail ∈ emails users)) as [Hin|Hnin]; [exact Hin|].
    apply find_email_none in Hnin. congruence. }
  right. split; [reflexivity|].
  split; [now apply find_username_none|].
  split; [now apply find_email_none|].
  unfold new_account, auth.hash_password.
  now destruct (refresh_answer ax).
Qed.

Lemma refused_not_fresh ax (name mail : string) (users : list account) :
  db_answer ax = Done tt ->
  name ∉ usernames users -> mail ∉ emails users ->
  ~ refused ax name mail users.
Proof.
  intros Hdb Hname Hmail [[e He] | [Hin | Hin]];
    [congruence|contradiction|contradiction].
Qed.

(** X22. [create_user] keeps user names and e-mail addresses unique: if no
    two accounts share a user name or an e-mail address before the call,
    none do after it, whatever the arguments and the database. *)
Theorem create_user_keeps_unique ax (name mail password : string)
    (nl tl vt : option string) (users : list account) :
  NoDup (usernames users) ->
  NoDup (emails users) ->
  NoDup (usernames (snd (auth.create_user ax name mail password nl tl vt users)))
  /\
  NoDup (emails (snd (auth.create_user ax name mail password nl tl vt users))).
Proof.
  intros Hnames Hmails.
  destruct (create_user_cases ax name mail password nl tl vt users)
    as [(-> & _) | (_ & Hname & Hmail & ->)]; [now split|].
  unfold usernames, emails in *. simpl snd. rewrite !fmap_app. simpl.
  split; apply NoDup_app; (split; [assumption|]);
    (split; [|apply NoDup_singleton]);
    intros x Hin Hx; apply list_elem_of_singleton in Hx; now subst x.
Qed.

Lemma create_user_keeps_unique_witness :
  NoDup (usernames (snd (auth.create_user sample_auth "luis" "luis@example.org"
                           "secret1" None None None [ana_account])))
  /\
  NoDup (emails (snd (auth.create_user sample_auth "luis" "luis@example.org"
                        "secret1" None None None [ana_account]))).
Proof.
  apply (create_user_keeps_unique sample_auth "luis" "luis@example.org"
           "secret1" None None None [ana_account]);
    apply NoDup_singleton.
Defined.

(** What [authenticate_user] answers, at any later time, for the name of an
    account that [create_user] has returned. *)
Lemma authenticate_created ax ax' (name mail password : string)
    (nl tl vt : option string) (users users' : list account) (u : User)
    (password' : string) :
  auth.create_user ax name mail password nl tl vt users = (Some u, users') ->
  auth.authenticate_user ax' name password' users'
  = match db_answer ax' with
    | Threw _ => None
    | Done _ =>
        if String.eqb (sha256_hexdigest ax' password')
                      (sha256_hexdigest ax password)
        then Some u else None
    end.
Proof.
  intros Hcreate.
  destruct (create_user_cases ax name mail password nl tl vt users)
    as [(Hnone & _) | (_ & Hname & _ & Hsome)]; [congruence|].
  rewrite Hsome in Hcreate.
  destruct (refresh_answer ax); [|discriminate].
  injection Hcreate as <- <-.
  unfold auth.authenticate_user. rewrite find_app_one.
  apply find_username_none in Hname. rewrite Hname.
  unfold has_username at 1. simpl. rewrite String.eqb_refl.
  reflexivity.
Qed.

(** X23. Sign-up and log-in fit together: when [create_user] has returned
    a user, a later [authenticate_user] with the same user name and a
    password that hashes as the one given at sign-up finds that user in the
    new table if the database answers, and gives [None] if the database
    throws. *)
Theorem create_then_authenticate ax ax' (name mail password : string)
    (nl tl vt : option string) (users users' : list account) (u : User) :
  auth.create_user ax name mail password nl tl vt users = (Some u, users') ->
  sha256_hexdigest ax' password = sha256_hexdigest ax password ->
  auth.authenticate_user ax' name password users'
  = match db_answer ax' with
    | Done _ => Some u
    | Threw _ => None
    end.
Proof.
  intros Hcreate Hhash.
  rewrite (authenticate_created ax ax' name mail password nl tl vt users users'
             u password Hcreate).
  rewrite Hhash, String.eqb_refl. reflexivity.
Qed.

Lemma create_then_authenticate_witness :
  auth.authenticate_user refresh_fails "luis" "secret1"
    (snd (auth.create_user sample_auth "luis" "luis@example.org" "secret1"
            None None None [ana_account]))
  = match db_answer refresh_fails with
    | Done _ =>
        Some (profile (new_account sample_auth "luis" "luis@example.org"
                         "secret1" None None None))
    | Threw _ => None
    end.
Proof.
  apply (create_then_authenticate sample_auth refresh_fails "luis"
           "luis@example.org" "secret1" None None None [ana_account]);
    reflexivity.
Defined.

(** X24. When the user name or the e-mail address is taken, or the
    database throws before the row is committed, [create_user] returns
    [None] and leaves the table as it was.  In every other case the table
    gains one account at the end, with the key the database assigned, the
    given name and address, the defaults ["en"], ["es"] and ["default"] in
    place of missing or empty preferences, and the hash of the password;
    the user of that account is returned if [db.refresh] goes through, and
    [None] is returned, with the account in the table all the same, if
    [db.refresh] throws. *)
Theorem create_user_outcome ax (name mail password : string)
    (nl tl vt : option string) (users : list account) :
  let acc := new_account ax name mail password nl tl vt in
  (refused ax name mail users ->
   auth.create_user ax name mail password nl tl vt users = (None, users)) /\
  (~ refused ax name mail users ->
   auth.create_user ax name mail password nl tl vt users
   = (match refresh_answer ax with
      | Done _ => Some (profile acc)
      | Threw _ => None
      end, (users ++ [acc])%list)) /\
  (fst (auth.create_user ax name mail password nl tl vt users) = None <->
   refused ax name mail users \/ exists e, refresh_answer ax = Threw e) /\
  (snd (auth.create_user ax name mail password nl tl vt users) = users <->
   refused ax name mail users) /\
  id (profile acc) = assigned_id ax /\
  username (profile acc) = name /\ email (profile acc) = mail /\
  native_language (profile acc) = or_default nl "en" /\
  target_language (profile acc) = or_default tl "es" /\
  voice_type (profile acc) = or_default vt "default" /\
  hashed_password acc = sha256_hexdigest ax password.
Proof.
  intros acc. subst acc.
  assert (Hgrow : forall (l : list account) a, (l ++ [a])%list <> l).
  { intros l a H. apply (f_equal length) in H.
    rewrite length_app in H. simpl in H. lia. }
  destruct (create_user_cases ax name mail password nl tl vt users)
    as [(Hnone & Hwhy) | (Hdb & Hname & Hmail & Hsome)].
  - split; [intros _; exact Hnone|]. split; [intros Hnot; now destruct Hnot|].
    rewrite Hnone. simpl. split; [|split; [|repeat split]].
    + split; [intros _; now left|reflexivity].
    + split; [intros _; exact Hwhy|reflexivity].
  - pose proof (refused_not_fresh ax name mail users Hdb Hname Hmail) as Hnot.
    split; [intros H; now destruct Hnot|]. split; [intros _; exact Hsome|].
    rewrite Hsome. simpl fst. simpl snd. split; [|split; [|repeat split]].
    + destruct (refresh_answer ax) as [[]|e].
      * split; [discriminate|]. intros [H | [e He]]; [now destruct Hnot|discriminate].
      * split; [|reflexivity]. intros _. right. now exists e.
    + split; [intros H; now apply Hgrow in H|intros H; now destruct Hnot].
Qed.

(** X25. [authenticate_user] only returns a user of the table who has the
    given user name and whose stored hash is the hash of the given password.
    Conversely, with unique user names and a database that answers, every
    account is found by its own name and any password with its hash. *)
Theorem authenticate_user_sound_complete ax (name password : string)
    (users : list account) :
  (forall u,
      auth.authenticate_user ax name password users = Some u ->
      exists a,
        a ∈ users /\ profile a = u /\ username u = name /\
        sha256_hexdigest ax password = hashed_password a) /\
  (NoDup (usernames users) ->
   db_answer ax = Done tt ->
   forall a,
     a ∈ users -> username (profile a) = name ->
     sha256_hexdigest ax password = hashed_password a ->
     auth.authenticate_user ax name password users = Some (profile a)).
Proof.
  unfold auth.authenticate_user, auth.verify_password, auth.hash_password.
  split.
  - intros u. destruct (db_answer ax) as [[]|e]; [|discriminate].
    destruct (find (has_username name) users) as [a|] eqn:Hfind; [|discriminate].
    apply find_some in Hfind as [Hin Hname].
    destruct (String.eqb_spec (sha256_hexdigest ax password) (hashed_password a))
      as [Hhash|]; [|discriminate].
    intros [= <-]. exists a. apply list_elem_of_In in Hin.
    apply String.eqb_eq in Hname. now repeat split.
  - intros Hnodup -> a Hin Hname Hhash.
    assert (Hfind : find (has_username name) users = Some a).
    { clear Hhash. unfold usernames in Hnodup.
      induction users as [|b users IH]; [now apply elem_of_nil in Hin|].
      rewrite fmap_cons in Hnodup. apply NoDup_cons in Hnodup as [Hfresh Hnodup].
      apply elem_of_cons in Hin as [->|Hin]; cbn [find].
      - unfold has_username at 1. rewrite Hname. now rewrite String.eqb_refl.
      - unfold has_username at 1.
        destruct (String.eqb_spec (username (profile b)) name) as [Heq|_];
          [|now apply IH].
        destruct Hfresh. rewrite Heq, <- Hname.
        apply list_elem_of_fmap. now exists a. }
    rewrite Hfind, Hhash. now rewrite String.eqb_refl.
Qed.

(** X26. Creating an account never changes who else can log in: for any
    other user name, [authenticate_user] answers the same on the table after
    [create_user] as on the table before. *)
Theorem create_user_keeps_accounts ax ax' (name mail password : string)
    (nl tl vt : option string) (users : list account)
    (name' password' : string) :
  name' <> name ->
  auth.authenticate_user ax' name' password'
    (snd (auth.create_user ax name mail password nl tl vt users))
  = auth.authenticate_user ax' name' password' users.
Proof.
  intros Hother.
  destruct (create_user_cases ax name mail password nl tl vt users)
    as [(-> & _) | (_ & _ & _ & ->)]; [reflexivity|].
  simpl snd. unfold auth.authenticate_user. rewrite find_app_one.
  destruct (db_answer ax'); [|reflexivity].
  destruct (find (has_username name') users); [reflexivity|].
  unfold has_username at 1. simpl.
  destruct (String.eqb_spec name name'); [congruence|reflexivity].
Qed.

Lemma create_user_keeps_accounts_witness :
  auth.authenticate_user sample_auth "ana" "correct horse"
    (snd (auth.create_user sample_auth "luis" "luis@example.org" "secret1"
            None None None [ana_account]))
  = auth.authenticate_user sample_auth "ana" "correct horse" [ana_account].
Proof.
  apply (create_user_keeps_accounts sample_auth sample_auth "luis"
           "luis@example.org" "secret1" None None None [ana_account]
           "ana" "correct horse").
  discriminate.
Defined.

(** [len] counts characters, not bytes: three characters of three bytes
    each. *)
Lemma len_counts_code_points :
  len "日本語" = 3%nat /\ String.length "日本語" = 9%nat.
Proof. split; reflexivity. Qed.

(** X27. A submitted sign-up form shows its notice (none when translation
    is enabled) followed by one message.  It reruns, with the new user
    logged in under a fresh token, exactly when the password equals its
    confirmation, has at least six characters ([len], which counts
    characters and not bytes), the user name and the e-mail address are
    free, and the database goes through, [db.refresh] included; the table
    then gains the account of that user, who can authenticate later with
    that password whenever the database answers, and with translation
    disabled the target language is the (non-empty) native language.
    Otherwise the form returns with an error and leaves the login state
    alone; the table is then unchanged, except that it has gained the new
    account when only [db.refresh] threw. *)
Theorem signup_form_outcome ax (name mail password confirm_password : string)
    (native : string) (translation_enabled : bool)
    (target_choice voice : string) (users : list account) (s : login_state) :
  let target := if translation_enabled then target_choice else native in
  let acc := new_account ax name mail password (Some native) (Some target)
               (Some voice) in
  let accepted :=
    password = confirm_password /\ (6 <= len password)%nat /\
    ~ refused ax name mail users in
  exists r s' users' msg,
    auth.signup_form ax name mail password confirm_password native
      translation_enabled target_choice voice true users s
    = (r, s', users', (signup_notice translation_enabled ++ [msg])%list) /\
    (r = Raised RerunException <->
     accepted /\ refresh_answer ax = Done tt) /\
    (users' = (users ++ [acc])%list <-> accepted) /\
    (users' = users <-> ~ accepted) /\
    (r = Raised RerunException ->
     msg = st_success "Account created successfully!" /\
     auth.get_current_user s' = Some (profile acc) /\
     session_token s' = Some (auth.login_user ax (profile acc)) /\
     username (profile acc) = name /\ email (profile acc) = mail /\
     hashed_password acc = sha256_hexdigest ax password /\
     (forall ax',
         sha256_hexdigest ax' password = sha256_hexdigest ax password ->
         auth.authenticate_user ax' name password users'
         = match db_answer ax' with
           | Done _ => Some (profile acc)
           | Threw _ => None
           end) /\
     (translation_enabled = false -> truthy native = true ->
      target_language (profile acc) = native_language (profile acc))) /\
    (r <> Raised RerunException ->
     r = Returned tt /\ s' = s /\ exists text, msg = st_error text) /\
    (len password < 6 -> password = confirm_password ->
     msg = st_error "Password must be at least 6 characters")%nat.
Proof.
  intros target acc accepted. subst target acc accepted.
  assert (Hgrow : forall (l : list account) a, (l ++ [a])%list <> l).
  { intros l a H. apply (f_equal length) in H.
    rewrite length_app in H. simpl in H. lia. }
  unfold auth.signup_form. fold (signup_notice translation_enabled).
  set (target := if translation_enabled then target_choice else native).
  set (acc := new_account ax name mail password (Some native) (Some target)
                (Some voice)).
  destruct (String.eqb_spec password confirm_password) as [Hsame|Hdiff];
    cbn [negb].
  2: { eexists _, _, _, _. split; [reflexivity|].
       split; [split; [discriminate|intros [(? & _) _]; contradiction]|].
       split; [split; [intros H; now apply eq_sym, Hgrow in H
                      |intros (? & _); contradiction]|].
       split; [split; [intros _ (? & _); contradiction|reflexivity]|].
       split; [discriminate|].
       split; [intros _; repeat split; now eexists|].
       intros _ ?; contradiction. }
  destruct (Nat.ltb_spec (len password) 6) as [Hshort|Hlong].
  { eexists _, _, _, _. split; [reflexivity|].
    split; [split; [discriminate|intros [(_ & ? & _) _]; lia]|].
    split; [split; [intros H; now apply eq_sym, Hgrow in H
                   |intros (_ & ? & _); lia]|].
    split; [split; [intros _ (_ & ? & _); lia|reflexivity]|].
    split; [discriminate|].
    split; [intros _; repeat split; now eexists|].
    reflexivity. }
  destruct (create_user_cases ax name mail password (Some native)
              (Some target) (Some voice) users)
    as [(Hnone & Hwhy) | (Hdb & Hname & Hmail & Hsome)].
  - rewrite Hnone. eexists _, _, _, _. split; [reflexivity|].
    split; [split; [discriminate|intros [(_ & _ & H) _]; now destruct H]|].
    split; [split; [intros H; now apply eq_sym, Hgrow in H
                   |intros (_ & _ & H); now destruct H]|].
    split; [split; [intros _ (_ & _ & H); now destruct H|reflexivity]|].
    split; [discriminate|].
    split; [intros _; repeat split; now eexists|].
    intros ?; lia.
  - pose proof (refused_not_fresh ax name mail users Hdb Hname Hmail) as Hnot.
    rewrite Hsome. fold acc.
    destruct (refresh_answer ax) as [[]|e] eqn:Hrefresh.
    + eexists _, _, _, _. split; [reflexivity|].
      split; [split; [intros _; now repeat split|reflexivity]|].
      split; [split; [intros _; now repeat split|reflexivity]|].
      split; [split; [intros H; now apply Hgrow in H
                     |intros H; destruct H; now repeat split]|].
      split.
      { intros _. split; [reflexivity|]. split; [reflexivity|].
        split; [reflexivity|]. split; [reflexivity|]. split; [reflexivity|].
        split; [reflexivity|]. split.
        - intros ax' Hhash.
          assert (Hcreate : auth.create_user ax name mail password (Some native)
                              (Some target) (Some voice) users
                            = (Some (profile acc), (users ++ [acc])%list)).
          { exact Hsome. }
          rewrite (authenticate_created ax ax' name mail password _ _ _ users
                     _ _ password Hcreate).
          rewrite Hhash, String.eqb_refl. reflexivity.
        - intros -> Hnative. subst acc target. simpl.
          unfold or_default. simpl. now rewrite Hnative. }
      split; [intros H; now destruct H|].
      intros ?; lia.
    + eexists _, _, _, _. split; [reflexivity|].
      split; [split; [discriminate|intros [_ ?]; discriminate]|].
      split; [split; [intros _; now repeat split|reflexivity]|].
      split; [split; [intros H; now apply Hgrow in H
                     |intros H; destruct H; now repeat split]|].
      split; [discriminate|].
      split; [intros _; repeat split; now eexists|].
      intros ?; lia.
Qed.

(** X28. Sign-up, log-out and log-in go round: after [logout] nobody is
    the current user.  Logging in later with the user name of the account
    [create_user] made and a password that hashes as the one given at
    sign-up brings back that same user, with a token of that time and a
    rerun, if the database answers then; if the database throws then, the
    form shows ["Invalid username or password"] and nobody is logged in.
    A password with another hash gets that error in either case and leaves
    the login state alone. *)
Theorem login_after_signup_and_logout ax ax' (name mail password : string)
    (nl tl vt : option string) (users users' : list account) (u : User)
    (s : login_state) :
  auth.create_user ax name mail password nl tl vt users = (Some u, users') ->
  sha256_hexdigest ax' password = sha256_hexdigest ax password ->
  let logged_out := snd (fst (auth.logout s)) in
  auth.get_current_user logged_out = None /\
  auth.login_form ax' name password true users' logged_out
  = match db_answer ax' with
    | Done _ =>
        (Raised RerunException,
         {| session_user := Some u;
            session_token := Some (auth.login_user ax' u) |},
         [st_success "Login successful!"])
    | Threw _ =>
        (Returned tt, logged_out, [st_error "Invalid username or password"])
    end /\
  forall password',
    sha256_hexdigest ax' password' <> sha256_hexdigest ax password ->
    auth.login_form ax' name password' true users' logged_out
    = (Returned tt, logged_out, [st_error "Invalid username or password"]).
Proof.
  intros Hcreate Hhash logged_out. split; [reflexivity|]. split.
  - unfold auth.login_form.
    rewrite (authenticate_created ax ax' name mail password nl tl vt users
               users' u password Hcreate).
    rewrite Hhash, String.eqb_refl. now destruct (db_answer ax').
  - intros password' Hother. unfold auth.login_form.
    rewrite (authenticate_created ax ax' name mail password nl tl vt users
               users' u password' Hcreate).
    destruct (db_answer ax'); [|reflexivity].
    now destruct (String.eqb_spec (sha256_hexdigest ax' password')
                    (sha256_hexdigest ax password)).
Qed.

Lemma login_after_signup_and_logout_witness :
  let users' := snd (auth.create_user sample_auth "luis" "luis@example.org"
                       "secret1" (Some "es") (Some "en") None [ana_account]) in
  let u := {| id := 7; username := "luis"; email := "luis@example.org";
              native_language := "es"; target_language := "en";
              voice_type := "default" |} in
  let logged_out :=
    snd (fst (auth.logout {| session_user := Some u;
                             session_token := Some "jwt.luis" |})) in
  auth.get_current_user logged_out = None /\
  auth.login_form database_down "luis" "secret1" true users' logged_out
  = match db_answer database_down with
    | Done _ =>
        (Raised RerunException,
         {| session_user := Some u;
            session_token := Some (auth.login_user database_down u) |},
         [st_success "Login successful!"])
    | Threw _ =>
        (Returned tt, logged_out, [st_error "Invalid username or password"])
    end /\
  forall password',
    sha256_hexdigest database_down password'
    <> sha256_hexdigest sample_auth "secret1" ->
    auth.login_form database_down "luis" password' true users' logged_out
    = (Returned tt, logged_out, [st_error "Invalid username or password"]).
Proof.
  apply (login_after_signup_and_logout sample_auth database_down "luis"
           "luis@example.org" "secret1" (Some "es") (Some "en") None
           [ana_account]);
    reflexivity.
Defined.
